(** * pythonElastic: follow graph, suggestions and match ranking

    A shallow embedding of the FastAPI route handlers of the repository
    (main.py, 7.py, Matches.py) over a model of the Elasticsearch index
    they talk to, and the properties of the follow protocol, of the
    friend-of-friend traversal and of the match ranking.

    Modelling conventions.
    - Python [int] is [Z]; a document id is a key of the index (the
      handlers pass [str(id)], which is injective on integers).
    - A Python [float] is read as the real number it denotes ([R]).  The
      arithmetic the match handlers do on floats is done by a [float_unit],
      which decides what each operation rounds to; [math.sqrt] raises
      [ValueError] below zero and [** 2] raises [OverflowError] out of
      range, as in Python.  [calculate_distance] at top level is the
      haversine formula in exact arithmetic, the quantity the function of
      that name approximates.
    - A document of the index (the [_source] dict) is the record [doc]; its
      fields are typed as the [User] model that writes them.
    - A handler is a computation in a state-and-exception monad over the
      index and the trace of client calls, so that "no write is issued" and
      "no search is issued" are statements about the trace.
    - Each route is its [try] block (named [..._body]) under its [except]
      clauses.  The clauses are applied to whatever the block raises, the
      [HTTPException]s it raises itself included: [HTTPException] derives
      from [Exception].
    - A Python [set] is a [gset]; a loop over it runs in the order of
      [elements], and no statement below depends on that order.
    - Files that define a route of the same name are kept apart by modules:
      [main] (main.py), [suggestions] and the follow routes (7.py),
      [Suggest_2] and [Matches] (Matches.py), [Matches_2] and [Matches_3]
      (Matches 2.py and Matches 3.py, at the end of 7.py). *)

From Stdlib Require Import Reals Lra ZArith List String.
From stdpp Require Import gmap strings list fin_maps pretty sorting.

Open Scope string_scope.
Open Scope list_scope.
Open Scope Z_scope.

(** ** models.py *)

Module models.

Inductive Gender := male | female.
Inductive Status := married | single.

Record Location := { lon : R; lat : R }.

Record User := {
  id : option Z;
  name : string;
  gender : Gender;
  status : Status;
  following : list Z;
  location : Location
}.

#[global] Instance Gender_eq_dec : EqDecision Gender.
Proof. solve_decision. Defined.

#[global] Instance Status_eq_dec : EqDecision Status.
Proof. solve_decision. Defined.

End models.

Import models(Gender, Status, Location, User, male, female, married, single).

(** ** The index

    A stored document.  [name], [gender], [status], [following] and
    [location] are the fields every handler writes through the [User]
    model; [x], [y] and [hobbies] are the optional fields the match
    handlers read with [source.get(..., default)]. *)

Record doc := {
  doc_name : string;
  doc_gender : Gender;
  doc_status : Status;
  doc_following : list Z;
  doc_location : Location;
  doc_x : option R;
  doc_y : option R;
  doc_hobbies : option (list string)
}.

(** [doc | {"following": l}], the merge a partial update performs. *)
Definition with_following (l : list Z) (d : doc) : doc :=
  {| doc_name := doc_name d; doc_gender := doc_gender d;
     doc_status := doc_status d; doc_following := l;
     doc_location := doc_location d; doc_x := doc_x d; doc_y := doc_y d;
     doc_hobbies := doc_hobbies d |}.

(** A search hit: [hit["_id"]] (already read back as an integer) and
    [hit["_source"]]. *)
Abbreviation hit := (Z * doc)%type.

(** The fragment of the query DSL the handlers build: the clauses of a
    [{"bool": {"filter": [...]}}] query. *)
Inductive filter_clause :=
| term_status (s : Status)
| must_not_term__id (i : Z).

Abbreviation query := (list filter_clause).

(** The two sort clauses of Matches.py: the painless script with its
    [params.user_hobbies], and [_geo_distance] on the [location] field
    from the point [(lat, lon)]. *)
Inductive sort_clause :=
| _script_desc (user_hobbies : list string)
| _geo_distance_asc (lat lon : R).

(** The queries of [get_all_users] and [get_followers]. *)
Module dsl.

Inductive clause :=
| match_name (name : string)
| term_gender (g : Gender)
| term_status (s : Status)
| term_following (i : Z)
| geo_distance (distance : R) (lon lat : R).

Inductive body :=
| match_all
| leaf (c : clause)
| bool_filter (cs : list clause).

End dsl.

(** Calls of the Elasticsearch client, as they appear in the trace:
    [c_search] is [es.search] with the query and sort of the match routes,
    [c_search_body] is [es.search] with a query of the listing routes. *)
Inductive es_call :=
| c_exists (i : Z)
| c_get (i : Z)
| c_update (i : Z) (following : list Z)
| c_search (q : query) (sort : list sort_clause) (size : Z)
| c_search_body (q : dsl.body) (size : Z)
| c_delete (i : Z)
| c_delete_by_query.

Record es_state := {
  index : gmap Z doc;
  calls : list es_call
}.

Definition called (c : es_call) (s : es_state) : es_state :=
  {| index := index s; calls := calls s ++ [c] |}.

(** ** Exceptions and the handler monad *)

(** [ValueError] and [OverflowError] carry their text, [str(e)]. *)
Inductive exn :=
| HTTPException (status_code : Z) (detail : string)
| NotFoundError
| ValueError (text : string)
| OverflowError (text : string).

(** [str(e)] of an [HTTPException]: Starlette prints it as
    "<status_code>: <detail>". *)
Definition str (status_code : Z) (detail : string) : string :=
  pretty status_code +:+ ": " +:+ detail.

Inductive result (A : Type) :=
| Ok (a : A)
| Raise (e : exn).
Arguments Ok {A} a.
Arguments Raise {A} e.

Definition M (A : Type) : Type := es_state → result A * es_state.

Definition ret {A} (a : A) : M A := λ s, (Ok a, s).

Definition raise {A} (e : exn) : M A := λ s, (Raise e, s).

Definition bind {A B} (c : M A) (k : A → M B) : M B :=
  λ s, match c s with
       | (Ok a, s') => k a s'
       | (Raise e, s') => (Raise e, s')
       end.

Notation "x <- c ;; k" := (bind c (λ x, k))
  (at level 100, c at next level, right associativity).
Notation "c ;;; k" := (bind c (λ _, k))
  (at level 100, right associativity).

(** Code that can raise but does not talk to the store, and its use
    inside a handler. *)
Definition bind_result {A B} (r : result A) (k : A → result B) : result B :=
  match r with
  | Ok a => k a
  | Raise e => Raise e
  end.

Notation "x <~ r ;; k" := (bind_result r (λ x, k))
  (at level 100, r at next level, right associativity).

Definition lift {A} (r : result A) : M A := λ s, (r, s).

(** [try: body except ...: raise h(e)]: every handler clause of the
    source re-raises, so a clause list is a function on exceptions. *)
Definition try_except {A} (body : M A) (h : exn → exn) : M A :=
  λ s, match body s with
       | (Ok a, s') => (Ok a, s')
       | (Raise e, s') => (Raise (h e), s')
       end.

(** [for x in l: acc = body(acc, x)]. *)
Fixpoint for_each {A B} (l : list A) (body : B → A → M B) (acc : B) : M B :=
  match l with
  | [] => ret acc
  | x :: l' => acc' <- body acc x ;; for_each l' body acc'
  end.

(** ** The Elasticsearch client *)

Definition es_exists (i : Z) : M bool :=
  λ s, (Ok (bool_decide (is_Some (index s !! i))), called (c_exists i) s).

Definition es_get (i : Z) : M doc :=
  λ s, match index s !! i with
       | Some d => (Ok d, called (c_get i) s)
       | None => (Raise NotFoundError, called (c_get i) s)
       end.

(** [es.update(id, body={"doc": {"following": l}})]. *)
Definition es_update (i : Z) (l : list Z) : M unit :=
  λ s, match index s !! i with
       | Some d =>
           (Ok tt, {| index := <[i := with_following l d]> (index s);
                      calls := calls s ++ [c_update i l] |})
       | None => (Raise NotFoundError, called (c_update i l) s)
       end.

(** ** routes/follow.py *)

(** The [except] clauses shared by the routes of 7.py and main.py:
    [except NotFoundError] answers 404; [except Exception as e] answers
    500 with [str(e)], and [HTTPException] is an [Exception]. *)
Definition except_clauses (e : exn) : exn :=
  match e with
  | NotFoundError => HTTPException 404 "User not found"
  | HTTPException status_code detail =>
      HTTPException 500 (str status_code detail)
  | ValueError text | OverflowError text => HTTPException 500 text
  end.

(** The [try] block of [add_follow]; the result is the pair
    [{"id": ..., "following": ...}]. *)
Definition add_follow_body (id follow_id : Z) : M (Z * list Z) :=
  b <- es_exists id ;;
  if negb b then raise (HTTPException 404 "User not found") else
  b <- es_exists follow_id ;;
  if negb b then raise (HTTPException 404 "Follow user not found") else
  if bool_decide (id = follow_id)
  then raise (HTTPException 400 "Cannot follow self") else
  user_doc <- es_get id ;;
  if bool_decide (follow_id ∉ doc_following user_doc) then
    let following := doc_following user_doc ++ [follow_id] in
    es_update id following ;;;
    ret (id, following)
  else ret (id, doc_following user_doc).

Definition add_follow (id follow_id : Z) : M (Z * list Z) :=
  try_except (add_follow_body id follow_id) except_clauses.

(** The [try] block of [remove_follow]. *)
Definition remove_follow_body (id follow_id : Z) : M (Z * list Z) :=
  b <- es_exists id ;;
  if negb b then raise (HTTPException 404 "User not found") else
  b <- es_exists follow_id ;;
  if negb b then raise (HTTPException 404 "Follow user not found") else
  user_doc <- es_get id ;;
  let following :=
    filter (λ f, f ≠ follow_id) (doc_following user_doc) in
  es_update id following ;;;
  ret (id, following).

Definition remove_follow (id follow_id : Z) : M (Z * list Z) :=
  try_except (remove_follow_body id follow_id) except_clauses.

(** ** The haversine formula *)

#[global] Instance Rlt_decision (x y : R) : Decision (x < y)%R := Rlt_dec x y.
#[global] Instance Req_decision : EqDecision R := Req_dec_T.

(** [math.radians]. *)
Definition radians (x : R) : R := (x * PI / 180)%R.

(** [math.atan2(y, x)], by quadrant. *)
Definition atan2 (y x : R) : R :=
  if decide (0 < x)%R then atan (y / x)
  else if decide (x < 0)%R then
    if decide (y < 0)%R then (atan (y / x) - PI)%R else (atan (y / x) + PI)%R
  else
    if decide (0 < y)%R then (PI / 2)%R
    else if decide (y < 0)%R then (- (PI / 2))%R
    else 0%R.

(** [calculate_distance] of Matches 2.py in exact arithmetic.  The store
    sorts on this distance; the route computes it in floats, see
    [Matches_2.calculate_distance]. *)
Definition calculate_distance (lat1 lon1 lat2 lon2 : R) : R :=
  let R := 6371.0%R in
  let lat1 := radians lat1 in
  let lon1 := radians lon1 in
  let lat2 := radians lat2 in
  let lon2 := radians lon2 in
  let dlat := (lat2 - lat1)%R in
  let dlon := (lon2 - lon1)%R in
  let a := (sin (dlat / 2) ^ 2 + cos lat1 * cos lat2 * sin (dlon / 2) ^ 2)%R in
  let c := (2 * atan2 (sqrt a) (sqrt (1 - a)))%R in
  (R * c)%R.

(** ** Floating-point arithmetic

    The operations the match handlers apply to floats.  A float is the
    real number it denotes, an infinite sum a real above every float;
    what an operation rounds to, and where a square leaves the range, is
    the float unit's.  The unit also holds the texts of the two
    exceptions, which differ between Python versions. *)
Class float_unit := {
  fl_add : R → R → R;
  fl_sub : R → R → R;
  fl_mul : R → R → R;
  fl_div : R → R → R;
  (* [x ** 2], [None] when it is out of range *)
  fl_square : R → option R;
  (* [x ** 0.5] *)
  fl_root : R → R;
  fl_radians : R → R;
  fl_sin : R → R;
  fl_cos : R → R;
  (* [math.sqrt] on a float that is not negative *)
  fl_sqrt : R → R;
  fl_atan2 : R → R → R;
  str_ValueError : string;
  str_OverflowError : string
}.

(** [math.sqrt(x)]. *)
Definition math_sqrt `{float_unit} (x : R) : result R :=
  if decide (x < 0)%R then Raise (ValueError str_ValueError)
  else Ok (fl_sqrt x).

(** [x ** 2] on a float. *)
Definition pow_2 `{float_unit} (x : R) : result R :=
  match fl_square x with
  | Some y => Ok y
  | None => Raise (OverflowError str_OverflowError)
  end.

(** The unit that does not round. *)
Definition exact_floats : float_unit :=
  {| fl_add := Rplus; fl_sub := Rminus; fl_mul := Rmult; fl_div := Rdiv;
     fl_square := λ x, Some (x ^ 2)%R;
     fl_root := sqrt;
     fl_radians := radians; fl_sin := sin; fl_cos := cos;
     fl_sqrt := sqrt; fl_atan2 := atan2;
     str_ValueError := "math domain error";
     str_OverflowError := "(34, 'Numerical result out of range')" |}.

(** ** Sorting

    [list.sort(key=...)] compares the keys with [<] only and is stable;
    on keys that [<] orders totally its result is the one stable sorted
    arrangement, which insertion from the right computes. *)

Fixpoint insert_sorted {A} (lt : A → A → bool) (x : A) (l : list A)
    : list A :=
  match l with
  | [] => [x]
  | y :: l' => if lt y x then y :: insert_sorted lt x l' else x :: y :: l'
  end.

Definition list_sort {A K} (key : A → K) (lt : K → K → bool)
    (l : list A) : list A :=
  foldr (insert_sorted (λ a b, lt (key a) (key b))) [] l.

(** [<] on the tuples [(int, float)] used as sort keys: the first
    components that differ decide. *)
Definition tuple_lt (k1 k2 : Z * R) : bool :=
  if decide (k1.1 = k2.1) then
    if decide (k1.2 = k2.2) then false else bool_decide (k1.2 < k2.2)%R
  else bool_decide (k1.1 < k2.1).

(** ** [es.search]

    The store answers a filter query with the matching documents in its
    own order (here the order of [map_to_list]), truncated to [size].
    With sort clauses the hits are ordered by the values of the clauses,
    earlier clauses first, documents equal on all of them staying in store
    order. *)

Definition clause_matches (c : filter_clause) (h : hit) : bool :=
  match c with
  | term_status s => bool_decide (doc_status h.2 = s)
  | must_not_term__id i => bool_decide (h.1 ≠ i)
  end.

Definition query_matches (q : query) (h : hit) : bool :=
  forallb (λ c, clause_matches c h) q.

(** The painless script of Matches.py, run on [params.user_hobbies] and
    [doc['hobbies']]. *)
Definition script_common (user_hobbies doc_hobbies : list string) : Z :=
  foldl (λ common hobby,
           if bool_decide (hobby ∈ doc_hobbies) then common + 1 else common)
        0 user_hobbies.

(** The value a sort clause gives a hit, oriented so that smaller comes
    first: the script value is negated ([order: desc]); the geo distance
    is the arc distance from the reference point to the document's
    [location]. *)
Definition sort_value (c : sort_clause) (h : hit) : R :=
  match c with
  | _script_desc user_hobbies =>
      (- IZR (script_common user_hobbies (default [] (doc_hobbies h.2))))%R
  | _geo_distance_asc lat lon =>
      calculate_distance lat lon
        (models.lat (doc_location h.2)) (models.lon (doc_location h.2))
  end.

Fixpoint values_lt (v1 v2 : list R) : bool :=
  match v1, v2 with
  | a :: v1', b :: v2' =>
      if decide (a = b) then values_lt v1' v2' else bool_decide (a < b)%R
  | _, _ => false
  end.

Definition search_hits (idx : gmap Z doc) (q : query)
    (sort : list sort_clause) (size : Z) : list hit :=
  take (Z.to_nat size)
    (list_sort (λ h, map (λ c, sort_value c h) sort) values_lt
       (filter (λ h, query_matches q h = true) (map_to_list idx))).

Definition es_search (q : query) (sort : list sort_clause) (size : Z)
    : M (list hit) :=
  λ s, (Ok (search_hits (index s) q sort size),
        called (c_search q sort size) s).

(** ** Building the response models *)

(** [User(id=i, **source)] once [source["location"]] holds [location]. *)
Definition User_of (i : Z) (source : doc) (location : Location) : User :=
  {| models.id := Some i;
     models.name := doc_name source;
     models.gender := doc_gender source;
     models.status := doc_status source;
     models.following := doc_following source;
     models.location := location |}.

(** The location the match handlers put into [source] before building
    the [User]: from [x] and [y] when both keys are present. *)
Definition xy_location (source : doc) : Location :=
  match doc_x source, doc_y source with
  | Some x, Some y => {| models.lon := x; models.lat := y |}
  | _, _ => {| models.lon := 0; models.lat := 0 |}
  end.

(** ** Friend-of-friend traversal (shared by the three suggestion routes) *)

(** Step 2: collect the users followed by the users in [following]. *)
Definition collect_followed (following : list Z) : M (gset Z) :=
  for_each following
    (λ suggested_ids followed_id,
       b <- es_exists followed_id ;;
       if b then
         followed_doc <- es_get followed_id ;;
         ret (suggested_ids ∪ list_to_set (doc_following followed_doc))
       else ret suggested_ids)
    ∅.

(** Step 3: [discard] the user and everyone already followed. *)
Definition exclude (id : Z) (following : list Z) (suggested_ids : gset Z)
    : gset Z :=
  foldl (λ ids fid, ids ∖ {[fid]}) (suggested_ids ∖ {[id]}) following.

(** Step 4: retrieve the suggested users that exist; [build] is the
    route's response constructor, [None] when the route skips the
    document.  The loop runs over the set in its iteration order. *)
Definition retrieve {A} (build : Z → doc → option A)
    (suggested_ids : gset Z) : M (list A) :=
  for_each (elements suggested_ids)
    (λ suggestions sid,
       b <- es_exists sid ;;
       if b then
         doc <- es_get sid ;;
         match build sid doc with
         | Some u => ret (suggestions ++ [u])
         | None => ret suggestions
         end
       else ret suggestions)
    [].

(** ** main.py *)

Module main.

Record Location := { x : R; y : R }.

Record UserSuggestion := {
  id : Z;
  gender : Gender;
  status : Status;
  location : Location
}.

(** [UserSuggestion(id=sid, gender=doc["gender"], status=doc["status"],
    location=doc["location"])]; in this file the stored location is the
    object with the two coordinates [x] and [y]. *)
Definition suggestion (sid : Z) (doc : doc) : option UserSuggestion :=
  Some {| id := sid;
          gender := doc_gender doc;
          status := doc_status doc;
          location := {| x := models.lon (doc_location doc);
                         y := models.lat (doc_location doc) |} |}.

Definition get_user_suggestions_body (user_id : Z)
    : M (list UserSuggestion) :=
  b <- es_exists user_id ;;
  if negb b then raise (HTTPException 404 "User not found") else
  user_doc <- es_get user_id ;;
  let following := doc_following user_doc in
  suggested_ids <- collect_followed following ;;
  let suggested_ids := exclude user_id following suggested_ids in
  retrieve suggestion suggested_ids.

Definition get_user_suggestions (user_id : Z) : M (list UserSuggestion) :=
  try_except (get_user_suggestions_body user_id) except_clauses.

End main.

(** ** routes/suggestions.py *)

Module suggestions.

(** [User(id=sid, name=..., gender=..., status=..., following=[],
    location=doc["location"])]. *)
Definition suggestion (sid : Z) (doc : doc) : option User :=
  Some {| models.id := Some sid;
          models.name := doc_name doc;
          models.gender := doc_gender doc;
          models.status := doc_status doc;
          models.following := [];
          models.location := doc_location doc |}.

Definition get_user_suggestions_body (id : Z) : M (list User) :=
  b <- es_exists id ;;
  if negb b then raise (HTTPException 404 "User not found") else
  user_doc <- es_get id ;;
  let following := doc_following user_doc in
  suggested_ids <- collect_followed following ;;
  let suggested_ids := exclude id following suggested_ids in
  retrieve suggestion suggested_ids.

Definition get_user_suggestions (id : Z) : M (list User) :=
  try_except (get_user_suggestions_body id) except_clauses.

End suggestions.

(** ** Suggest 2.py (the status-aware route of Matches.py) *)

Module Suggest_2.

(** The document is kept only [if doc.get("status") == "single"]; the
    [interested_in] keyword is not a field of [User]. *)
Definition suggestion (sid : Z) (doc : doc) : option User :=
  if bool_decide (doc_status doc = single) then
    Some {| models.id := Some sid;
            models.name := doc_name doc;
            models.gender := doc_gender doc;
            models.status := doc_status doc;
            models.following := [];
            models.location := doc_location doc |}
  else None.

Definition get_user_suggestions_body (id : Z) : M (list User) :=
  b <- es_exists id ;;
  if negb b then raise (HTTPException 404 "User not found") else
  user_doc <- es_get id ;;
  let user_status := doc_status user_doc in
  let user_following := doc_following user_doc in
  if bool_decide (user_status ≠ single) then ret [] else
  suggested_ids <- collect_followed user_following ;;
  let suggested_ids := exclude id user_following suggested_ids in
  retrieve suggestion suggested_ids.

Definition get_user_suggestions (id : Z) : M (list User) :=
  try_except (get_user_suggestions_body id) except_clauses.

End Suggest_2.

(** ** The match routes *)

(** The [except] clauses of the three [get_matches]. *)
Definition matches_except_clauses (e : exn) : exn :=
  match e with
  | NotFoundError => HTTPException 404 "User not found"
  | HTTPException status_code detail =>
      HTTPException 500
        ("Failed to retrieve matches: " +:+ str status_code detail)
  | ValueError text | OverflowError text =>
      HTTPException 500 ("Failed to retrieve matches: " +:+ text)
  end.

(** The query of the three routes: status [single], not the user. *)
Definition matches_query (id : Z) : query :=
  [term_status single; must_not_term__id id].

(** An entry of the [matches] list of the client-side routes. *)
Record scored := {
  user : User;
  common_hobbies : Z;
  distance : R
}.

(** The key of [matches.sort]. *)
Definition sort_key (m : scored) : Z * R := (- common_hobbies m, distance m).

(** *** Matches.py: scoring and ordering pushed into the search *)

Module Matches.

Definition get_matches_body (id : Z) : M (list User) :=
  b <- es_exists id ;;
  if negb b then raise (HTTPException 404 "User not found") else
  user_doc <- es_get id ;;
  let user_status := doc_status user_doc in
  let user_location :=
    (default 0%R (doc_x user_doc), default 0%R (doc_y user_doc)) in
  let user_hobbies := default [] (doc_hobbies user_doc) in
  if bool_decide (user_status ≠ single) then ret [] else
  let query := matches_query id in
  let sort := [_script_desc user_hobbies;
               _geo_distance_asc user_location.2 user_location.1] in
  res <- es_search query sort 10000 ;;
  ret (map (λ hit : hit, User_of hit.1 hit.2 (xy_location hit.2)) res).

Definition get_matches (id : Z) : M (list User) :=
  try_except (get_matches_body id) matches_except_clauses.

End Matches.

(** *** Matches 2.py: client-side scoring, great-circle distance *)

Module Matches_2.

Section floats.

Context `{float_unit}.

Definition calculate_distance (lat1 lon1 lat2 lon2 : R) : result R :=
  let R := 6371.0%R in
  let lat1 := fl_radians lat1 in
  let lon1 := fl_radians lon1 in
  let lat2 := fl_radians lat2 in
  let lon2 := fl_radians lon2 in
  let dlat := fl_sub lat2 lat1 in
  let dlon := fl_sub lon2 lon1 in
  sin_dlat_2 <~ pow_2 (fl_sin (fl_div dlat 2)) ;;
  sin_dlon_2 <~ pow_2 (fl_sin (fl_div dlon 2)) ;;
  let a :=
    fl_add sin_dlat_2
      (fl_mul (fl_mul (fl_cos lat1) (fl_cos lat2)) sin_dlon_2) in
  sqrt_a <~ math_sqrt a ;;
  sqrt_1_a <~ math_sqrt (fl_sub 1 a) ;;
  let c := fl_mul 2 (fl_atan2 sqrt_a sqrt_1_a) in
  Ok (fl_mul R c).

(** One turn of the loop over the hits, up to the entry it appends. *)
Definition score (user_location : R * R) (user_hobbies : gset string)
    (hit : hit) : result scored :=
  let source := hit.2 in
  let match_id := hit.1 in
  let match_hobbies : gset string :=
    list_to_set (default [] (doc_hobbies source)) in
  let common_hobbies := Z.of_nat (size (user_hobbies ∩ match_hobbies)) in
  let match_location :=
    (default 0%R (doc_x source), default 0%R (doc_y source)) in
  distance <~ calculate_distance user_location.2 user_location.1
                match_location.2 match_location.1 ;;
  Ok {| user := User_of match_id source (xy_location source);
        common_hobbies := common_hobbies;
        distance := distance |}.

Definition get_matches_body (id : Z) : M (list User) :=
  b <- es_exists id ;;
  if negb b then raise (HTTPException 404 "User not found") else
  user_doc <- es_get id ;;
  let user_status := doc_status user_doc in
  let user_location :=
    (default 0%R (doc_x user_doc), default 0%R (doc_y user_doc)) in
  let user_hobbies : gset string :=
    list_to_set (default [] (doc_hobbies user_doc)) in
  if bool_decide (user_status ≠ single) then ret [] else
  let query := matches_query id in
  res <- es_search query [] 10000 ;;
  matches <- for_each res
               (λ matches hit,
                  m <- lift (score user_location user_hobbies hit) ;;
                  ret (matches ++ [m]))
               [] ;;
  let matches := list_sort sort_key tuple_lt matches in
  ret (map user matches).

Definition get_matches (id : Z) : M (list User) :=
  try_except (get_matches_body id) matches_except_clauses.

End floats.

End Matches_2.

(** *** Matches 3.py: client-side scoring, planar distance *)

Module Matches_3.

Section floats.

Context `{float_unit}.

(** One turn of the loop over the hits, up to the entry it appends. *)
Definition score (user_location : R * R) (user_hobbies : gset string)
    (hit : hit) : result scored :=
  let source := hit.2 in
  let match_id := hit.1 in
  let match_hobbies : gset string :=
    list_to_set (default [] (doc_hobbies source)) in
  let common_hobbies := Z.of_nat (size (user_hobbies ∩ match_hobbies)) in
  let match_location :=
    (default 0%R (doc_x source), default 0%R (doc_y source)) in
  dx_2 <~ pow_2 (fl_sub user_location.1 match_location.1) ;;
  dy_2 <~ pow_2 (fl_sub user_location.2 match_location.2) ;;
  let distance := fl_root (fl_add dx_2 dy_2) in
  Ok {| user := User_of match_id source (xy_location source);
        common_hobbies := common_hobbies;
        distance := distance |}.

Definition get_matches_body (id : Z) : M (list User) :=
  b <- es_exists id ;;
  if negb b then raise (HTTPException 404 "User not found") else
  user_doc <- es_get id ;;
  let user_status := doc_status user_doc in
  let user_location :=
    (default 0%R (doc_x user_doc), default 0%R (doc_y user_doc)) in
  let user_hobbies : gset string :=
    list_to_set (default [] (doc_hobbies user_doc)) in
  if bool_decide (user_status ≠ single) then ret [] else
  let query := matches_query id in
  res <- es_search query [] 10000 ;;
  matches <- for_each res
               (λ matches hit,
                  m <- lift (score user_location user_hobbies hit) ;;
                  ret (matches ++ [m]))
               [] ;;
  let matches := list_sort sort_key tuple_lt matches in
  ret (map user matches).

Definition get_matches (id : Z) : M (list User) :=
  try_except (get_matches_body id) matches_except_clauses.

End floats.

End Matches_3.

(** ** Observers *)

(** The ids of the users a route returned, [None] when it raised. *)
Definition returned_ids (r : result (list User) * es_state)
    : option (list Z) :=
  match r.1 with
  | Ok us => Some (omap models.id us)
  | Raise _ => None
  end.

Definition is_write (c : es_call) : bool :=
  match c with
  | c_update _ _ | c_delete _ | c_delete_by_query => true
  | _ => false
  end.

Definition is_search (c : es_call) : bool :=
  match c with
  | c_search _ _ _ | c_search_body _ _ => true
  | _ => false
  end.

(** The number of writes, and of searches, in a trace. *)
Definition writes (tr : list es_call) : nat :=
  length (filter (λ c, is_write c = true) tr).

Definition searches (tr : list es_call) : nat :=
  length (filter (λ c, is_search c = true) tr).

(** ** The loop bodies as functions of the index

    What one iteration of step 2 and of step 4 computes from the index
    it reads. *)

Definition collect_step (idx : gmap Z doc) (suggested_ids : gset Z)
    (followed_id : Z) : gset Z :=
  match idx !! followed_id with
  | Some followed_doc =>
      suggested_ids ∪ list_to_set (doc_following followed_doc)
  | None => suggested_ids
  end.

Definition retrieve_step {A} (build : Z → doc → option A)
    (idx : gmap Z doc) (suggestions : list A) (sid : Z) : list A :=
  match idx !! sid ≫= build sid with
  | Some u => suggestions ++ [u]
  | None => suggestions
  end.

(** ** Specification of the friend-of-friend relation *)

(** [sid] is followed by an existing member of [following]. *)
Definition second_degree (idx : gmap Z doc) (following : list Z) (sid : Z)
    : Prop :=
  ∃ f fd, f ∈ following ∧ idx !! f = Some fd ∧ sid ∈ doc_following fd.

(** [sid] is to be suggested to user [id] whose document is [u]: a
    second-degree id other than the user and the ids already followed,
    which exists. *)
Definition suggested (idx : gmap Z doc) (id : Z) (u : doc) (sid : Z) : Prop :=
  second_degree idx (doc_following u) sid
  ∧ sid ≠ id ∧ (sid ∉ doc_following u) ∧ is_Some (idx !! sid).

(** ** Specification of the ranking order *)

(** Ascending order on the sort keys [(-common, distance)]: fewer negated
    common hobbies first, that is more common hobbies first, and the
    nearer first among equals. *)
Definition key_le (k1 k2 : Z * R) : Prop :=
  k1.1 < k2.1 ∨ (k1.1 = k2.1 ∧ (k1.2 <= k2.2)%R).

(** What a client-side match route is to answer on the [hits] of its
    search, for a requester with the hobbies [user_hobbies], when
    [distance_of] is the distance it computes for a hit.

    Either every distance is computed: then the answer is the profiles of
    the hits, each hit scored with the number of hobbies it shares with
    the requester and with its distance, arranged with more common
    hobbies first and the smaller distance first among equals, entries
    equal on both in the order of the hits.  Or the distance of some hit
    raises: then the answer is 500 with the text of the exception. *)
Definition ranked (hits : list hit) (user_hobbies : gset string)
    (distance_of : hit → result R) (answer : result (list User)) : Prop :=
  (∃ candidates ms : list scored,
     Forall2
       (λ (h : hit) (m : scored),
          user m = {| models.id := Some h.1;
                      models.name := doc_name h.2;
                      models.gender := doc_gender h.2;
                      models.status := doc_status h.2;
                      models.following := doc_following h.2;
                      models.location :=
                        match doc_x h.2, doc_y h.2 with
                        | Some x, Some y =>
                            {| models.lon := x; models.lat := y |}
                        | _, _ => {| models.lon := 0; models.lat := 0 |}
                        end |}
          ∧ common_hobbies m
            = Z.of_nat
                (size (user_hobbies
                       ∩ list_to_set (default [] (doc_hobbies h.2))))
          ∧ distance_of h = Ok (distance m))
       hits candidates
     ∧ answer = Ok (map user ms)
     ∧ ms ≡ₚ candidates
     ∧ StronglySorted
         (λ m1 m2,
            common_hobbies m2 < common_hobbies m1
            ∨ (common_hobbies m1 = common_hobbies m2
               ∧ (distance m1 <= distance m2)%R))
         ms
     ∧ ∀ (c : Z) (d : R),
         filter (λ m, common_hobbies m = c ∧ distance m = d) ms
         = filter (λ m, common_hobbies m = c ∧ distance m = d) candidates)
  ∨ (∃ (h : hit) (text : string),
       h ∈ hits
       ∧ (distance_of h = Raise (ValueError text)
          ∨ distance_of h = Raise (OverflowError text))
       ∧ answer
         = Raise (HTTPException 500
                    ("Failed to retrieve matches: " +:+ text))).

(** The entry of a hit when the distance is the exact great-circle
    distance. *)
Definition exact_score (user_location : R * R) (user_hobbies : gset string)
    (hit : hit) : scored :=
  {| user := User_of hit.1 hit.2 (xy_location hit.2);
     common_hobbies :=
       Z.of_nat
         (size (user_hobbies
                ∩ list_to_set (default [] (doc_hobbies hit.2))));
     distance :=
       calculate_distance user_location.2 user_location.1
         (default 0%R (doc_y hit.2)) (default 0%R (doc_x hit.2)) |}.

(** The entry of a hit when the distance is the exact planar distance. *)
Definition planar_score (user_location : R * R) (user_hobbies : gset string)
    (hit : hit) : scored :=
  {| user := User_of hit.1 hit.2 (xy_location hit.2);
     common_hobbies :=
       Z.of_nat
         (size (user_hobbies
                ∩ list_to_set (default [] (doc_hobbies hit.2))));
     distance :=
       sqrt ((user_location.1 - default 0 (doc_x hit.2)) ^ 2
             + (user_location.2 - default 0 (doc_y hit.2)) ^ 2)%R |}.

(** ** Example stores *)

Definition fresh (idx : gmap Z doc) : es_state :=
  {| index := idx; calls := [] |}.

(** A document as the create route of 7.py stores it. *)
Definition profile (name : string) (status : Status) (following : list Z)
    : doc :=
  {| doc_name := name; doc_gender := female; doc_status := status;
     doc_following := following;
     doc_location := {| models.lon := 0; models.lat := 0 |};
     doc_x := None; doc_y := None; doc_hobbies := None |}.

(** A single user with a position and hobbies, as the match routes read
    them. *)
Definition located (name : string) (x y : R) (hobbies : list string) : doc :=
  {| doc_name := name; doc_gender := female; doc_status := single;
     doc_following := [];
     doc_location := {| models.lon := x; models.lat := y |};
     doc_x := Some x; doc_y := Some y; doc_hobbies := Some hobbies |}.

(** Users 1 and 2; 1 follows nobody. *)
Definition two_users : es_state :=
  fresh {[ 1 := profile "U" single []; 2 := profile "A" single [] ]}.

(** User 1 follows user 2. *)
Definition follows : es_state :=
  fresh {[ 1 := profile "U" single [2]; 2 := profile "A" single [] ]}.

(** U (1) follows A (2); A follows B (3) and U; B follows U and A. *)
Definition triangle : es_state :=
  fresh {[ 1 := profile "U" single [2];
           2 := profile "A" single [3; 1];
           3 := profile "B" single [1; 2] ]}.

(** A married user 1 next to a single user 2. *)
Definition married_user : es_state :=
  fresh {[ 1 := profile "U" married [2]; 2 := profile "A" single [] ]}.

(** The "match ordering" scenario: the requester at (0, 0) with reading
    and hiking; X one degree away with both and cooking; Y a hundredth of
    a degree away with hiking only. *)
Definition match_ordering : es_state :=
  fresh {[ 1 := located "R" 0 0 ["reading"; "hiking"];
           2 := located "X" 0 1 ["reading"; "hiking"; "cooking"];
           3 := located "Y" 0 0.01 ["hiking"] ]}.

(** The three users of the fixture of Test2.py. *)
Definition existing_users : es_state :=
  fresh {[ 1 := located "John Doe" (-122.4194) 37.7749 ["reading"; "hiking"];
           2 := located "Jane Smith" (-122.4195) 37.7748
                  ["hiking"; "swimming"];
           3 := located "Alice Brown" (-122.42) 37.77
                  ["reading"; "hiking"; "cooking"] ]}.

(** A requester whose stored hobby list repeats an entry, next to A, who
    shares the repeated hobby only, and B, who shares the two others. *)
Definition repeated_hobby : es_state :=
  fresh {[ 1 := located "R" 0 0 ["a"; "a"; "a"; "b"; "c"];
           2 := located "A" 0 0 ["a"];
           3 := located "B" 0 0 ["b"; "c"] ]}.

(** User 1 with a stored list that names user 2 twice. *)
Definition duplicate_follow : es_state :=
  fresh {[ 1 := profile "U" single [2; 2]; 2 := profile "A" single [] ]}.

(** The requester at the north pole, [(x, y) = (0, 90)]; B (2) one degree
    south of it; A (3) at longitude 180 and latitude 90, which is the
    pole again.  Nobody has a hobby. *)
Definition north_pole : es_state :=
  fresh {[ 1 := located "R" 0 90 [];
           2 := located "B" 0 89 [];
           3 := located "A" 180 90 [] ]}.

(* ================================================================== *)
(** * The other routes of 7.py and main.py

    The read, delete and listing routes.  The create and update routes
    are left out: what they answer is decided by how pydantic and the
    client serialize a model, which the source does not show. *)

(** ** More of the Elasticsearch client *)

(** [es.delete(id)]: the [result] field of the response. *)
Definition es_delete (i : Z) : M string :=
  λ s, match index s !! i with
       | Some _ =>
           (Ok "deleted", {| index := delete i (index s);
                             calls := calls s ++ [c_delete i] |})
       | None => (Raise NotFoundError, called (c_delete i) s)
       end.

(** [es.delete_by_query(body={"query": {"match_all": {}}})]: the
    [deleted] field of the response. *)
Definition es_delete_by_query : M (option Z) :=
  λ s, (Ok (Some (Z.of_nat (size (index s)))),
        {| index := ∅; calls := calls s ++ [c_delete_by_query] |}).

(** What the source leaves to the search engine: the analyzed text match
    of a [match] query, the test of a [geo_distance] filter (radius in
    km, then the point, then the document's location), and the text of a
    [NotFoundError]. *)
Class engine := {
  analyzed_match : string → string → bool;
  geo_distance_within : R → R → R → Location → bool;
  str_NotFoundError : string
}.

(** [User(id=i, **source)] of the routes of 7.py, after the stored
    [location] list is turned into [{"lon": ..., "lat": ...}]. *)
Definition User_at (i : Z) (source : doc) : User :=
  User_of i source (doc_location source).

(** ** routes/get_user.py *)

Definition get_user_body (id : Z) : M User :=
  res <- es_get id ;;
  ret (User_at id res).

Definition get_user (id : Z) : M User :=
  try_except (get_user_body id) except_clauses.

(** ** routes/delete_user.py *)

Definition delete_user_body (id : Z) : M unit :=
  b <- es_exists id ;;
  if negb b then raise (HTTPException 404 "User not found") else
  res <- es_delete id ;;
  if bool_decide (res ≠ "deleted")
  then raise (HTTPException 500 "Failed to delete user")
  else ret tt.

Definition delete_user (id : Z) : M unit :=
  try_except (delete_user_body id) except_clauses.

(** ** routes/get_following.py *)

Definition get_following_body (id : Z) : M (list User) :=
  b <- es_exists id ;;
  if negb b then raise (HTTPException 404 "User not found") else
  user_doc <- es_get id ;;
  let following := doc_following user_doc in
  for_each following
    (λ following_users follow_id,
       b <- es_exists follow_id ;;
       if b then
         doc <- es_get follow_id ;;
         ret (following_users ++ [User_at follow_id doc])
       else ret following_users)
    [].

Definition get_following (id : Z) : M (list User) :=
  try_except (get_following_body id) except_clauses.

(** ** The routes that search: get_followers.py, get_all.py, and
    delete_all.py *)

Section engine.

Context `{engine}.

Definition clause_holds (c : dsl.clause) (h : hit) : bool :=
  match c with
  | dsl.match_name name => analyzed_match name (doc_name h.2)
  | dsl.term_gender g => bool_decide (doc_gender h.2 = g)
  | dsl.term_status s => bool_decide (doc_status h.2 = s)
  | dsl.term_following i => bool_decide (i ∈ doc_following h.2)
  | dsl.geo_distance distance lon lat =>
      geo_distance_within distance lon lat (doc_location h.2)
  end.

Definition body_holds (q : dsl.body) (h : hit) : bool :=
  match q with
  | dsl.match_all => true
  | dsl.leaf c => clause_holds c h
  | dsl.bool_filter cs => forallb (λ c, clause_holds c h) cs
  end.

(** [es.search(body={"query": q}, size=size)]: the matching documents in
    store order, truncated. *)
Definition es_search_body (q : dsl.body) (size : Z) : M (list hit) :=
  λ s, (Ok (take (Z.to_nat size)
              (filter (λ h, body_holds q h = true) (map_to_list (index s)))),
        called (c_search_body q size) s).

(** The one clause of these routes, [except Exception as e]. *)
Definition except_Exception (e : exn) : exn :=
  match e with
  | HTTPException status_code detail =>
      HTTPException 500 (str status_code detail)
  | NotFoundError => HTTPException 500 str_NotFoundError
  | ValueError text | OverflowError text => HTTPException 500 text
  end.

Definition get_followers_body (id : Z) : M (list User) :=
  b <- es_exists id ;;
  if negb b then raise (HTTPException 404 "User not found") else
  let query := dsl.leaf (dsl.term_following id) in
  res <- es_search_body query 10000 ;;
  ret (map (λ hit : hit, User_at hit.1 hit.2) res).

Definition get_followers (id : Z) : M (list User) :=
  try_except (get_followers_body id) except_Exception.

(** [if name:] holds for a non-empty string. *)
Definition truthy (name : option string) : bool :=
  match name with
  | Some n => negb (bool_decide (n = ""))
  | None => false
  end.

(** The list [query["bool"]["filter"]] after the five tests. *)
Definition get_all_filter (name : option string) (gender : option Gender)
    (status : option Status) (following : option Z) (lon lat : option R)
    (radius : R) : list dsl.clause :=
  let filter := [] in
  let filter :=
    match name with
    | Some n => if truthy name then filter ++ [dsl.match_name n] else filter
    | None => filter
    end in
  let filter :=
    match gender with
    | Some g => filter ++ [dsl.term_gender g]
    | None => filter
    end in
  let filter :=
    match status with
    | Some s => filter ++ [dsl.term_status s]
    | None => filter
    end in
  let filter :=
    match following with
    | Some i => filter ++ [dsl.term_following i]
    | None => filter
    end in
  match lon, lat with
  | Some lon, Some lat => filter ++ [dsl.geo_distance radius lon lat]
  | _, _ => filter
  end.

Definition get_all_users (name : option string) (gender : option Gender)
    (status : option Status) (following : option Z) (lon lat : option R)
    (radius : R) : M (list User) :=
  if bool_decide (is_Some lon ∧ lat = None)
     || bool_decide (lon = None ∧ is_Some lat)
  then raise (HTTPException 400
                "Both lon and lat must be provided for location filtering")
  else
    let filter := get_all_filter name gender status following lon lat radius in
    let query :=
      match filter with
      | [] => dsl.match_all
      | _ => dsl.bool_filter filter
      end in
    try_except
      (res <- es_search_body query 10000 ;;
       ret (map (λ hit : hit, User_at hit.1 hit.2) res))
      except_Exception.

Definition delete_all_users : M unit :=
  try_except
    (res <- es_delete_by_query ;;
     match res with
     | None => raise (HTTPException 500 "Failed to delete all users")
     | Some _ => ret tt
     end)
    except_Exception.

End engine.

(** An engine for the examples: a name matches when it is the query
    text, and a point is within the radius by [calculate_distance]. *)
#[global] Instance Rle_decision (x y : R) : Decision (x <= y)%R := Rle_dec x y.

Definition example_engine : engine :=
  {| analyzed_match := λ q n, bool_decide (q = n);
     geo_distance_within := λ distance lon lat loc,
       bool_decide (calculate_distance lat lon (models.lat loc)
                      (models.lon loc) <= distance)%R;
     str_NotFoundError := "NotFoundError" |}.

(** ** The other routes of main.py *)

Module main_users.

Record UserOut := {
  gender : Gender;
  status : Status;
  following : list Z;
  location : main.Location;
  id : Z
}.

(** [UserOut(id=user_id, **res["_source"])]. *)
Definition UserOut_of (user_id : Z) (source : doc) : UserOut :=
  {| gender := doc_gender source;
     status := doc_status source;
     following := doc_following source;
     location := {| main.x := models.lon (doc_location source);
                    main.y := models.lat (doc_location source) |};
     id := user_id |}.

Definition get_user_body (user_id : Z) : M UserOut :=
  res <- es_get user_id ;;
  ret (UserOut_of user_id res).

Definition get_user (user_id : Z) : M UserOut :=
  try_except (get_user_body user_id) except_clauses.

Definition delete_user_body (user_id : Z) : M unit :=
  b <- es_exists user_id ;;
  if negb b then raise (HTTPException 404 "User not found") else
  res <- es_delete user_id ;;
  if bool_decide (res ≠ "deleted")
  then raise (HTTPException 500 "Failed to delete user")
  else ret tt.

Definition delete_user (user_id : Z) : M unit :=
  try_except (delete_user_body user_id) except_clauses.

End main_users.

(** ** Invariants of the follow graph *)

(** No list of follows repeats an id, names its own user, or names a
    user that is not in the index. *)
Definition well_formed (idx : gmap Z doc) : Prop :=
  map_Forall
    (λ i d, NoDup (doc_following d)
            ∧ (i ∉ doc_following d)
            ∧ Forall (λ j, is_Some (idx !! j)) (doc_following d))
    idx.


(** ** Specification of the listing filters *)

(** The document [d] passes the filters of [get_all_users]: every
    parameter that is given holds of it, the name only when it is not
    the empty string, the location only when both coordinates are
    given. *)
Definition selected `{engine} (name : option string) (gender : option Gender)
    (status : option Status) (following : option Z) (lon lat : option R)
    (radius : R) (d : doc) : Prop :=
  (∀ n, name = Some n → n ≠ "" → analyzed_match n (doc_name d) = true)
  ∧ (∀ g, gender = Some g → doc_gender d = g)
  ∧ (∀ st, status = Some st → doc_status d = st)
  ∧ (∀ f, following = Some f → f ∈ doc_following d)
  ∧ (∀ x y, lon = Some x → lat = Some y →
       geo_distance_within radius x y (doc_location d) = true).

(* ================================================================== *)
(** * Properties *)

(** ** The follow protocol *)

(** Unfold one handler down to the store, then settle its tests. *)
Ltac run :=
  unfold try_except, bind, es_exists, es_get, es_update, es_search, ret, raise,
    called; simpl.

Ltac absurd_test :=
  match goal with
  | H : ¬ is_Some _ |- _ => exfalso; apply H; by eauto
  | H : is_Some None |- _ => by destruct H
  | H : is_Some (?m !! ?i), E : ?m !! ?i = None |- _ =>
      rewrite E in H; by destruct H
  | H : ¬ _ |- _ => by exfalso; apply H
  end.

Ltac tests :=
  repeat first
    [ match goal with
      | H : ?m !! ?i = _ |- context [?m !! ?i] => rewrite H; simpl
      end
    | case_bool_decide; simpl; try absurd_test; try done ];
  try (by rewrite <- ?app_assoc).

Section follow.

Context (s : es_state) (id follow_id : Z).

Lemma add_follow_body_missing_user :
  index s !! id = None →
  add_follow_body id follow_id s
  = (Raise (HTTPException 404 "User not found"), called (c_exists id) s).
Proof. intros Hid. unfold add_follow_body. run. tests. Qed.

Lemma add_follow_body_missing_target :
  is_Some (index s !! id) → index s !! follow_id = None →
  add_follow_body id follow_id s
  = (Raise (HTTPException 404 "Follow user not found"),
     called (c_exists follow_id) (called (c_exists id) s)).
Proof. intros Hid Hf. unfold add_follow_body. run. tests. Qed.

Lemma add_follow_body_self :
  is_Some (index s !! id) → id = follow_id →
  add_follow_body id follow_id s
  = (Raise (HTTPException 400 "Cannot follow self"),
     called (c_exists follow_id) (called (c_exists id) s)).
Proof. intros Hid <-. unfold add_follow_body. run. tests. Qed.

Lemma add_follow_body_present (d : doc) :
  index s !! id = Some d → is_Some (index s !! follow_id) →
  id ≠ follow_id → follow_id ∈ doc_following d →
  add_follow_body id follow_id s
  = (Ok (id, doc_following d),
     {| index := index s;
        calls := calls s ++ [c_exists id; c_exists follow_id; c_get id] |}).
Proof.
  intros Hid Hf Hne Hin. unfold add_follow_body. run. tests.
Qed.

Lemma add_follow_body_absent (d : doc) :
  index s !! id = Some d → is_Some (index s !! follow_id) →
  id ≠ follow_id → follow_id ∉ doc_following d →
  add_follow_body id follow_id s
  = (Ok (id, doc_following d ++ [follow_id]),
     {| index :=
          <[id := with_following (doc_following d ++ [follow_id]) d]>
            (index s);
        calls := calls s ++ [c_exists id; c_exists follow_id; c_get id;
                             c_update id (doc_following d ++ [follow_id])] |}).
Proof.
  intros Hid Hf Hne Hin. unfold add_follow_body. run. tests.
Qed.

Lemma remove_follow_body_run (d : doc) :
  index s !! id = Some d → is_Some (index s !! follow_id) →
  let following := filter (λ f, f ≠ follow_id) (doc_following d) in
  remove_follow_body id follow_id s
  = (Ok (id, following),
     {| index := <[id := with_following following d]> (index s);
        calls := calls s ++ [c_exists id; c_exists follow_id; c_get id;
                             c_update id following] |}).
Proof.
  intros Hid Hf. unfold remove_follow_body. run. tests.
Qed.

End follow.

Lemma with_following_id (d : doc) : with_following (doc_following d) d = d.
Proof. by destruct d. Qed.

Lemma filter_ne_absent (x : Z) (l : list Z) :
  x ∉ l → filter (λ f, f ≠ x) l = l.
Proof.
  induction l as [|y l IH]; [done|]. intros Hx.
  apply not_elem_of_cons in Hx as [Hxy Hl].
  rewrite filter_cons_True by done. by rewrite IH.
Qed.

Lemma filter_eq_absent (x : Z) (l : list Z) :
  x ∉ l → filter (λ f, f = x) l = [].
Proof.
  induction l as [|y l IH]; [done|]. intros Hx.
  apply not_elem_of_cons in Hx as [Hxy Hl].
  rewrite filter_cons_False by done. by apply IH.
Qed.

Lemma once_of_NoDup (x : Z) (l : list Z) :
  NoDup l → x ∈ l → length (filter (λ f, f = x) l) = 1%nat.
Proof.
  induction 1 as [|y l Hy Hnd IH]; [by intros ?%elem_of_nil|].
  intros [->|Hx]%elem_of_cons.
  - rewrite filter_cons_True by done. by rewrite filter_eq_absent.
  - rewrite filter_cons_False by (intros ->; done). by apply IH.
Qed.

Lemma writes_app (tr tr' : list es_call) :
  writes (tr ++ tr') = (writes tr + writes tr')%nat.
Proof. unfold writes. by rewrite filter_app, length_app. Qed.

Lemma searches_app (tr tr' : list es_call) :
  searches (tr ++ tr') = (searches tr + searches tr')%nat.
Proof. unfold searches. by rewrite filter_app, length_app. Qed.

Lemma filter_eq_present (x : Z) (l : list Z) :
  x ∈ l → (1 ≤ length (filter (λ f, f = x) l))%nat.
Proof.
  induction l as [|y l IH]; [by intros ?%elem_of_nil|].
  intros [->|Hx]%elem_of_cons.
  - rewrite filter_cons_True by done. simpl. lia.
  - rewrite filter_cons. destruct (decide (y = x)); simpl; [lia|]. auto.
Qed.

(** C3 (as amended): AddFollow is idempotent.  For an existing follower
    [id] and an existing, different target [follow_id]: when the target
    is already in the stored list the call succeeds with the stored list
    and issues no write (the trace gains two existence checks and one
    read); otherwise the target is appended at the end and the new list
    is persisted by one update.  Two calls in sequence return the same
    list as the first call, and the second call writes nothing and leaves
    the index as the first call left it.  That list holds the target as
    often as the stored list did, and once if the stored list did not
    hold it: exactly once when the stored list held it at most once.  A
    stored list without duplicates stays without duplicates. *)
Theorem add_follow_idempotent (s : es_state) (id follow_id : Z) (d : doc) :
  index s !! id = Some d → is_Some (index s !! follow_id) →
  id ≠ follow_id →
  (follow_id ∈ doc_following d →
     ∃ s1, add_follow id follow_id s = (Ok (id, doc_following d), s1)
       ∧ index s1 = index s
       ∧ calls s1 = calls s ++ [c_exists id; c_exists follow_id; c_get id]
       ∧ writes (calls s1) = writes (calls s))
  ∧ (follow_id ∉ doc_following d →
     ∃ s1, add_follow id follow_id s
           = (Ok (id, doc_following d ++ [follow_id]), s1)
       ∧ index s1
         = <[id := with_following (doc_following d ++ [follow_id]) d]>
             (index s)
       ∧ calls s1
         = calls s ++ [c_exists id; c_exists follow_id; c_get id;
                       c_update id (doc_following d ++ [follow_id])])
  ∧ ∃ l s1 s2,
      add_follow id follow_id s = (Ok (id, l), s1)
      ∧ add_follow id follow_id s1 = (Ok (id, l), s2)
      ∧ index s2 = index s1
      ∧ writes (calls s2) = writes (calls s1)
      ∧ doc_following <$> index s1 !! id = Some l
      ∧ length (filter (λ f, f = follow_id) l)
        = Nat.max 1
            (length (filter (λ f, f = follow_id) (doc_following d)))
      ∧ (NoDup (doc_following d) → NoDup l).
Proof.
  intros Hid Hf Hne.
  assert (Hpresent : ∀ s' d', index s' !! id = Some d' →
            is_Some (index s' !! follow_id) → follow_id ∈ doc_following d' →
            add_follow id follow_id s'
            = (Ok (id, doc_following d'),
               {| index := index s';
                  calls := calls s' ++ [c_exists id; c_exists follow_id;
                                        c_get id] |})).
  { intros s' d' H1 H2 H3. unfold add_follow, try_except.
    by rewrite (add_follow_body_present s' id follow_id d'). }
  assert (Habsent : follow_id ∉ doc_following d →
            add_follow id follow_id s
            = (Ok (id, doc_following d ++ [follow_id]),
               {| index :=
                    <[id := with_following (doc_following d ++ [follow_id]) d]>
                      (index s);
                  calls :=
                    calls s ++ [c_exists id; c_exists follow_id; c_get id;
                                c_update id (doc_following d ++ [follow_id])]
               |})).
  { intros H3. unfold add_follow, try_except.
    by rewrite (add_follow_body_absent s id follow_id d). }
  assert (Hreads : ∀ tr,
            writes (tr ++ [c_exists id; c_exists follow_id; c_get id])
            = writes tr).
  { intros tr. rewrite writes_app. unfold writes at 2. simpl. lia. }
  split; [|split].
  - intros Hin. eexists. split; [by apply Hpresent|]. simpl.
    split; [done|]. split; [done|]. apply Hreads.
  - intros Hin. eexists. split; [by apply Habsent|]. done.
  - destruct (decide (follow_id ∈ doc_following d)) as [Hin|Hin].
    + eexists _, _, _. split; [by apply Hpresent|].
      split; [by apply (Hpresent _ d)|]. simpl.
      split; [done|]. split; [apply Hreads|]. rewrite Hid.
      split; [done|]. split; [|done].
      pose proof (filter_eq_present follow_id _ Hin). lia.
    + eexists _, _, _. split; [by apply Habsent|].
      split.
      { erewrite
          (Hpresent _ (with_following (doc_following d ++ [follow_id]) d)).
        - done.
        - simpl. by rewrite lookup_insert_eq.
        - simpl. by rewrite lookup_insert_ne.
        - simpl. apply elem_of_app. right. by apply list_elem_of_singleton. }
      simpl. split; [done|]. split; [apply Hreads|].
      rewrite lookup_insert_eq. split; [done|]. split.
      * rewrite filter_app, filter_eq_absent by done.
        by rewrite filter_cons_True.
      * intros Hnd. apply NoDup_app. split; [done|].
        split; [|apply NoDup_singleton].
        intros x Hx ->%list_elem_of_singleton. done.
Qed.

Lemma add_follow_idempotent_witness :
  index two_users !! 1 = Some (profile "U" single [])
  ∧ is_Some (index two_users !! 2)
  ∧ 1 ≠ 2
  ∧ ∃ l s1 s2,
      add_follow 1 2 two_users = (Ok (1, l), s1)
      ∧ add_follow 1 2 s1 = (Ok (1, l), s2)
      ∧ index s2 = index s1
      ∧ writes (calls s2) = writes (calls s1)
      ∧ doc_following <$> index s1 !! 1 = Some l
      ∧ length (filter (λ f, f = 2) l)
        = Nat.max 1
            (length (filter (λ f, f = 2)
                       (doc_following (profile "U" single []))))
      ∧ (NoDup (doc_following (profile "U" single [])) → NoDup l).
Proof.
  assert (H1 : index two_users !! 1 = Some (profile "U" single []))
    by reflexivity.
  assert (H2 : is_Some (index two_users !! 2)) by (eexists; reflexivity).
  assert (H3 : 1 ≠ 2) by lia.
  repeat split; try assumption.
  exact (proj2 (proj2 (add_follow_idempotent two_users 1 2 _ H1 H2 H3))).
Defined.

(** C3 (as stated) fails on a stored list that names the target twice:
    both calls succeed without a write and return the list as stored, in
    which the target occurs twice, not exactly once. *)
Lemma add_follow_keeps_duplicates :
  ∃ s1 s2,
    add_follow 1 2 duplicate_follow = (Ok (1, [2; 2]), s1)
    ∧ add_follow 1 2 s1 = (Ok (1, [2; 2]), s2)
    ∧ writes (calls s2) = 0%nat
    ∧ length (filter (λ f, f = 2) [2; 2]) = 2%nat.
Proof. eexists _, _. repeat split; reflexivity. Qed.

(** C4: RemoveFollow.  For an existing follower and an existing target the
    call succeeds and returns the stored [following] with every occurrence
    of the target filtered out; the target is not in the returned list; the
    list is persisted by an update in every case, also when the target was
    absent, and then the list and the index are unchanged. *)
Theorem remove_follow_spec (s : es_state) (id follow_id : Z) (d : doc) :
  index s !! id = Some d → is_Some (index s !! follow_id) →
  ∃ following s1,
    remove_follow id follow_id s = (Ok (id, following), s1)
    ∧ following = filter (λ f, f ≠ follow_id) (doc_following d)
    ∧ (follow_id ∉ following)
    ∧ index s1 = <[id := with_following following d]> (index s)
    ∧ calls s1
      = calls s ++ [c_exists id; c_exists follow_id; c_get id;
                    c_update id following]
    ∧ (follow_id ∉ doc_following d →
         following = doc_following d ∧ index s1 = index s).
Proof.
  intros Hid Hf. eexists _, _. split.
  { unfold remove_follow, try_except.
    by rewrite (remove_follow_body_run s id follow_id d). }
  split; [done|]. split.
  { intros [Hx _]%list_elem_of_filter. done. }
  simpl. split; [done|]. split; [done|].
  intros Hx. rewrite filter_ne_absent by done. split; [done|].
  rewrite with_following_id. by apply insert_id.
Qed.

Lemma remove_follow_spec_witness :
  index follows !! 1 = Some (profile "U" single [2])
  ∧ is_Some (index follows !! 2)
  ∧ ∃ following s1,
      remove_follow 1 2 follows = (Ok (1, following), s1)
      ∧ following = filter (λ f, f ≠ 2) [2]
      ∧ (2 ∉ following)
      ∧ index s1
        = <[1 := with_following following (profile "U" single [2])]>
            (index follows)
      ∧ calls s1
        = calls follows ++ [c_exists 1; c_exists 2; c_get 1;
                            c_update 1 following]
      ∧ (2 ∉ [2] → following = [2] ∧ index s1 = index follows).
Proof.
  assert (H1 : index follows !! 1 = Some (profile "U" single [2]))
    by reflexivity.
  assert (H2 : is_Some (index follows !! 2)) by (eexists; reflexivity).
  repeat split; try assumption.
  exact (remove_follow_spec follows 1 2 _ H1 H2).
Defined.

(** C5: what the code does where the claim expects a rejection.  When
    the follower is missing, the target is missing or the two ids are
    equal, the [try] block raises the rejection the claim names, the
    existence tests first: 404 "User not found", 404 "Follow user not
    found", 400 "Cannot follow self".  The route's own [except Exception]
    clause catches it, and the call answers 500 with the text of the
    rejection.  The index is unchanged and the trace gains existence
    tests only. *)
Theorem add_follow_rejections (s : es_state) (id follow_id : Z) :
  index s !! id = None ∨ index s !! follow_id = None ∨ id = follow_id →
  ∃ status_code detail s1,
    (status_code, detail)
    = (if decide (is_Some (index s !! id)) then
         if decide (is_Some (index s !! follow_id))
         then (400, "Cannot follow self")
         else (404, "Follow user not found")
       else (404, "User not found"))
    ∧ add_follow_body id follow_id s
      = (Raise (HTTPException status_code detail), s1)
    ∧ add_follow id follow_id s
      = (Raise (HTTPException 500 (str status_code detail)), s1)
    ∧ index s1 = index s
    ∧ ∃ tr, calls s1 = calls s ++ tr
            ∧ Forall (λ c, ∃ i, c = c_exists i) tr.
Proof.
  intros Hcase. unfold add_follow, try_except.
  destruct (decide (is_Some (index s !! id))) as [Hid|Hid].
  - destruct (decide (is_Some (index s !! follow_id))) as [Hf|Hf].
    + assert (id = follow_id) as Heq.
      { destruct Hcase as [H|[H|H]]; [| |done].
        - rewrite H in Hid. by destruct Hid.
        - rewrite H in Hf. by destruct Hf. }
      rewrite add_follow_body_self by done.
      eexists _, _, _. split; [done|]. split; [done|]. split; [done|].
      simpl. split; [done|].
      exists [c_exists id; c_exists follow_id]. rewrite <- app_assoc.
      split; [done|]. repeat constructor; eauto.
    + rewrite add_follow_body_missing_target
        by (done || by apply eq_None_not_Some).
      eexists _, _, _. split; [done|]. split; [done|]. split; [done|].
      simpl. split; [done|].
      exists [c_exists id; c_exists follow_id]. rewrite <- app_assoc.
      split; [done|]. repeat constructor; eauto.
  - rewrite add_follow_body_missing_user by (by apply eq_None_not_Some).
    eexists _, _, _. split; [done|]. split; [done|]. split; [done|].
    simpl. split; [done|].
    exists [c_exists id]. split; [done|]. repeat constructor; eauto.
Qed.

(** [AddFollow(1, 1)] for an existing user 1: the 400 of the self-follow
    test is answered as 500. *)
Lemma add_follow_rejections_witness :
  (index two_users !! 1 = None ∨ index two_users !! 1 = None ∨ 1 = 1)
  ∧ (add_follow_body 1 1 two_users).1
    = Raise (HTTPException 400 "Cannot follow self")
  ∧ (add_follow 1 1 two_users).1
    = Raise (HTTPException 500 "400: Cannot follow self")
  ∧ index (add_follow 1 1 two_users).2 = index two_users.
Proof.
  assert (H : index two_users !! 1 = None ∨ index two_users !! 1 = None
              ∨ 1 = 1) by (right; right; reflexivity).
  split; [exact H|].
  destruct (add_follow_rejections two_users 1 1 H)
    as (status_code & detail & s1 & Hsd & Hbody & Hroute & Hidx & _).
  injection Hsd as -> ->.
  rewrite Hbody, Hroute. split; [reflexivity|]. split; [reflexivity|].
  exact Hidx.
Defined.

(** C9: what the code does at the claim's input.  A self-follow of an id
    that is not in the index raises 404 "User not found" inside the [try]
    block, before the self-follow test is reached; the route's own
    [except Exception] clause then catches that [HTTPException], and the
    call answers 500 with the text of the 404. *)
Theorem add_follow_self_missing_answers_500 (s : es_state) (x : Z) :
  index s !! x = None →
  add_follow_body x x s
  = (Raise (HTTPException 404 "User not found"), called (c_exists x) s)
  ∧ add_follow x x s
    = (Raise (HTTPException 500 "404: User not found"),
       called (c_exists x) s).
Proof.
  intros Hx. unfold add_follow, try_except.
  rewrite add_follow_body_missing_user by done. done.
Qed.

Lemma add_follow_self_missing_answers_500_witness :
  index two_users !! 7 = None
  ∧ add_follow_body 7 7 two_users
    = (Raise (HTTPException 404 "User not found"),
       called (c_exists 7) two_users)
  ∧ add_follow 7 7 two_users
    = (Raise (HTTPException 500 "404: User not found"),
       called (c_exists 7) two_users).
Proof.
  assert (H7 : index two_users !! 7 = None) by reflexivity.
  split; [exact H7|].
  exact (add_follow_self_missing_answers_500 two_users 7 H7).
Defined.

(** No failure of [add_follow] reaches the caller as 404 or 400: the
    [try] block cannot raise [NotFoundError] once the existence tests have
    passed, and every [HTTPException] it raises is answered as 500. *)
Lemma add_follow_fails_with_500 (s s' : es_state) (id follow_id : Z)
    (e : exn) :
  add_follow id follow_id s = (Raise e, s') →
  ∃ detail, e = HTTPException 500 detail.
Proof.
  unfold add_follow, try_except.
  destruct (index s !! id) as [d|] eqn:Hid.
  - destruct (index s !! follow_id) as [fd|] eqn:Hf.
    + destruct (decide (id = follow_id)) as [Heq|Hne].
      * rewrite add_follow_body_self by done. intros [= <- _]. eauto.
      * destruct (decide (follow_id ∈ doc_following d)) as [Hin|Hin].
        -- by rewrite (add_follow_body_present s id follow_id d).
        -- by rewrite (add_follow_body_absent s id follow_id d).
    + rewrite add_follow_body_missing_target by done.
      intros [= <- _]. eauto.
  - rewrite add_follow_body_missing_user by done. intros [= <- _]. eauto.
Qed.

(** ** Loops over the store *)

Section loops.

Context {A B : Type}.

(** A loop whose body only reads the store computes a fold over the
    index it started with. *)
Lemma for_each_reads (step : gmap Z doc → B → A → B) (body : B → A → M B) :
  (∀ acc x s, ∃ s', body acc x s = (Ok (step (index s) acc x), s')
                    ∧ index s' = index s
                    ∧ writes (calls s') = writes (calls s)) →
  ∀ l acc s, ∃ s', for_each l body acc s
                   = (Ok (foldl (step (index s)) acc l), s')
                   ∧ index s' = index s
                   ∧ writes (calls s') = writes (calls s).
Proof.
  intros Hbody l. induction l as [|x l IH]; intros acc s; simpl.
  - by exists s.
  - destruct (Hbody acc x s) as (s1 & Hrun & Hidx & Hw).
    unfold bind. rewrite Hrun.
    destruct (IH (step (index s) acc x) s1) as (s2 & Hrun2 & Hidx2 & Hw2).
    exists s2. rewrite Hrun2, Hidx. split; [done|]. split; congruence.
Qed.

(** What holds of the accumulator at the start and is kept by the body
    holds of the result. *)
Lemma for_each_keeps (P : B → Prop) (body : B → A → M B) :
  (∀ acc x s acc' s', P acc → body acc x s = (Ok acc', s') → P acc') →
  ∀ l acc s r s', P acc → for_each l body acc s = (Ok r, s') → P r.
Proof.
  intros Hbody l. induction l as [|x l IH]; intros acc s r s' Hacc; simpl.
  - unfold ret. by intros [= <- _].
  - unfold bind. destruct (body acc x s) as [[acc1|e] s1] eqn:Hrun; [|done].
    apply IH. by eapply Hbody.
Qed.

End loops.

(** ** The suggestion traversal *)

Lemma collect_step_fold (idx : gmap Z doc) (following : list Z)
    (acc : gset Z) (sid : Z) :
  sid ∈ foldl (collect_step idx) acc following
  ↔ sid ∈ acc ∨ second_degree idx following sid.
Proof.
  revert acc. induction following as [|f l IH]; intros acc; simpl.
  - split; [by left|]. intros [?|(f & fd & []%elem_of_nil & _)]. done.
  - rewrite IH. unfold collect_step, second_degree. split.
    + intros [Hacc|(f' & fd & Hf' & Hfd & Hsid)].
      * destruct (idx !! f) as [fd|] eqn:Hf; [|by left].
        apply elem_of_union in Hacc as [?|Hsid]; [by left|].
        right. exists f, fd. rewrite elem_of_list_to_set in Hsid.
        split; [by left|done].
      * right. exists f', fd. split; [by right|done].
    + intros [Hacc|(f' & fd & [->|Hf']%elem_of_cons & Hfd & Hsid)].
      * left. destruct (idx !! f); [|done]. apply elem_of_union. by left.
      * left. rewrite Hfd. apply elem_of_union. right.
        by rewrite elem_of_list_to_set.
      * right. by exists f', fd.
Qed.

Lemma collect_followed_run (following : list Z) (s : es_state) :
  ∃ ids s', collect_followed following s = (Ok ids, s')
    ∧ index s' = index s
    ∧ writes (calls s') = writes (calls s)
    ∧ ∀ sid, sid ∈ ids ↔ second_degree (index s) following sid.
Proof.
  unfold collect_followed.
  edestruct (for_each_reads collect_step) as (s' & Hrun & Hidx & Hw);
    last first.
  { eexists _, s'. split; [exact Hrun|]. split; [done|]. split; [done|].
    intros sid. rewrite collect_step_fold. split; [|by right].
    by intros [?%not_elem_of_empty|?]. }
  intros acc x s0. unfold collect_step. run.
  destruct (index s0 !! x) as [fd|] eqn:Hx.
  - rewrite bool_decide_true by done. simpl. rewrite Hx.
    eexists. split; [done|]. simpl. split; [done|].
    rewrite <- app_assoc, writes_app. unfold writes at 2. simpl. lia.
  - rewrite bool_decide_false by (by intros []). simpl.
    eexists. split; [done|]. simpl. split; [done|].
    rewrite writes_app. unfold writes at 2. simpl. lia.
Qed.

Lemma exclude_spec (id : Z) (following : list Z) (ids : gset Z) (sid : Z) :
  sid ∈ exclude id following ids ↔ sid ∈ ids ∧ sid ≠ id ∧ sid ∉ following.
Proof.
  unfold exclude.
  assert (H : ∀ l (acc : gset Z),
             sid ∈ foldl (λ ids fid, ids ∖ {[fid]}) acc l
             ↔ sid ∈ acc ∧ sid ∉ l).
  { induction l as [|f l IH]; intros acc; simpl.
    - split; [intros ?; split; [done|]; by intros ?%elem_of_nil|by intros []].
    - rewrite IH, not_elem_of_cons, elem_of_difference, not_elem_of_singleton.
      tauto. }
  rewrite H, elem_of_difference, not_elem_of_singleton. tauto.
Qed.

Section retrieve.

Context {A : Type} (build : Z → doc → option A).

Lemma retrieve_step_fold (idx : gmap Z doc) (l : list Z) (acc : list A) :
  foldl (retrieve_step build idx) acc l
  = acc ++ omap (λ sid, idx !! sid ≫= build sid) l.
Proof.
  revert acc. induction l as [|sid l IH]; intros acc; simpl.
  - by rewrite app_nil_r.
  - rewrite IH. unfold retrieve_step.
    destruct (idx !! sid ≫= build sid); [|done]. by rewrite <- app_assoc.
Qed.

Lemma retrieve_run (ids : gset Z) (s : es_state) :
  ∃ s', retrieve build ids s
        = (Ok (omap (λ sid, index s !! sid ≫= build sid) (elements ids)), s')
    ∧ index s' = index s
    ∧ writes (calls s') = writes (calls s).
Proof.
  unfold retrieve.
  edestruct (for_each_reads (retrieve_step build)) as (s' & Hrun & Hidx & Hw);
    last first.
  { exists s'. rewrite Hrun, retrieve_step_fold. done. }
  intros acc x s0. unfold retrieve_step. run.
  destruct (index s0 !! x) as [d|] eqn:Hx; simpl.
  - rewrite ?Hx. simpl.
    destruct (build x d); eexists; (split; [done|]); simpl;
      (split; [done|]);
      rewrite <- app_assoc, writes_app; unfold writes at 2; simpl; lia.
  - eexists. split; [done|]. simpl. split; [done|].
    rewrite writes_app. unfold writes at 2. simpl. lia.
Qed.

(** Every element of the result was built from an existing document. *)
Lemma retrieve_keeps (P : A → Prop) :
  (∀ sid d u, build sid d = Some u → P u) →
  ∀ ids s us s', retrieve build ids s = (Ok us, s') → Forall P us.
Proof.
  intros Hbuild ids s us s'. unfold retrieve.
  apply (for_each_keeps (Forall P)); [|constructor].
  intros acc x s0 acc' s0' Hacc. run.
  destruct (bool_decide _); simpl.
  - destruct (index s0 !! x) as [d|]; [|done].
    destruct (build x d) as [u|] eqn:Hu; intros [= <-]; [|done].
    apply Forall_app. split; [done|]. repeat constructor. by eapply Hbuild.
  - by intros [= <-].
Qed.

End retrieve.

Section traversal.

Context {A K : Type} (build : Z → doc → option A).
Context (ident : A → K) (key : Z → K).
Hypothesis key_inj : ∀ i j, key i = key j → i = j.
Hypothesis build_ident : ∀ sid d p, build sid d = Some p → ident p = key sid.

Lemma built_idents (idx : gmap Z doc) (l : list Z) :
  map ident (omap (λ sid, idx !! sid ≫= build sid) l)
  = map key (filter (λ sid, is_Some (idx !! sid ≫= build sid)) l).
Proof.
  induction l as [|sid l IH]; [done|]. csimpl.
  destruct (idx !! sid ≫= build sid) as [p|] eqn:Hp.
  - rewrite filter_cons_True by (by rewrite Hp). csimpl. rewrite IH.
    f_equal. destruct (idx !! sid) as [d|]; [|done]. by eapply build_ident.
  - rewrite filter_cons_False by (rewrite Hp; by intros []). done.
Qed.

(** Steps 2 to 4 of a suggestion route, run from any state. *)
Lemma traversal_run (id : Z) (following : list Z) (s : es_state) :
  ∃ us s',
    (suggested_ids <- collect_followed following ;;
     retrieve build (exclude id following suggested_ids)) s = (Ok us, s')
    ∧ index s' = index s
    ∧ writes (calls s') = writes (calls s)
    ∧ NoDup (map ident us)
    ∧ ∀ p, p ∈ us ↔
        ∃ sid d, second_degree (index s) following sid
                 ∧ sid ≠ id ∧ (sid ∉ following)
                 ∧ index s !! sid = Some d ∧ build sid d = Some p.
Proof.
  destruct (collect_followed_run following s)
    as (ids & s1 & Hrun1 & Hidx1 & Hw1 & Hids).
  destruct (retrieve_run build (exclude id following ids) s1)
    as (s2 & Hrun2 & Hidx2 & Hw2).
  unfold bind. rewrite Hrun1, Hrun2, Hidx1.
  eexists _, s2. split; [done|].
  split; [congruence|]. split; [congruence|]. split.
  - rewrite built_idents. apply NoDup_fmap_2.
    + intros i j. apply key_inj.
    + apply NoDup_filter, NoDup_elements.
  - intros p. rewrite list_elem_of_omap. split.
    + intros (sid & Hsid & Hp).
      apply elem_of_elements, exclude_spec in Hsid as (Hin & Hne & Hnf).
      destruct (index s !! sid) as [d|] eqn:Hd; [|done].
      exists sid, d. by rewrite <- Hids.
    + intros (sid & d & Hsd & Hne & Hnf & Hd & Hp).
      exists sid. split; [|by rewrite Hd].
      apply elem_of_elements, exclude_spec. by rewrite Hids.
Qed.

End traversal.

(** The opening of every read route: the existence test and the read of
    the user's own document. *)
Lemma exists_then_get {A} (e : exn) (k : doc → M A) (s : es_state) (id : Z)
    (u : doc) :
  index s !! id = Some u →
  (b <- es_exists id ;;
   if negb b then raise e else user_doc <- es_get id ;; k user_doc) s
  = k u (called (c_get id) (called (c_exists id) s)).
Proof. intros Hid. run. tests. Qed.

Lemma try_except_ok {A} (body : M A) (h : exn → exn) (s s' : es_state)
    (a : A) :
  body s = (Ok a, s') → try_except body h s = (Ok a, s').
Proof. intros H. unfold try_except. by rewrite H. Qed.

(** C2: Suggestions.  For an existing user [id] with document [u], both the
    route of 7.py and the route of main.py succeed without changing the
    index.  An id is suggested when it is followed by an existing member
    of [u]'s [following], is not [id], is not in [following], and exists.
    The result holds exactly one profile for each suggested id and
    nothing else: for the route of 7.py the [User] with the id, the
    stored name, gender, status and location and an empty [following];
    for the route of main.py the [UserSuggestion] with the id and the
    stored gender, status and location.  No id appears twice, and an id
    that is not in the index contributes nothing and raises nothing. *)
Theorem get_user_suggestions_spec (s : es_state) (id : Z) (u : doc) :
  index s !! id = Some u →
  (∃ us s',
     suggestions.get_user_suggestions id s = (Ok us, s')
     ∧ index s' = index s
     ∧ NoDup (map models.id us)
     ∧ ∀ p, p ∈ us ↔
         ∃ sid d, suggested (index s) id u sid ∧ index s !! sid = Some d
                  ∧ p = {| models.id := Some sid;
                           models.name := doc_name d;
                           models.gender := doc_gender d;
                           models.status := doc_status d;
                           models.following := [];
                           models.location := doc_location d |})
  ∧ (∃ us s',
       main.get_user_suggestions id s = (Ok us, s')
       ∧ index s' = index s
       ∧ NoDup (map main.id us)
       ∧ ∀ p, p ∈ us ↔
           ∃ sid d, suggested (index s) id u sid ∧ index s !! sid = Some d
                    ∧ p = {| main.id := sid;
                             main.gender := doc_gender d;
                             main.status := doc_status d;
                             main.location :=
                               {| main.x := models.lon (doc_location d);
                                  main.y := models.lat (doc_location d) |}
                          |}).
Proof.
  intros Hid. split.
  - destruct (traversal_run suggestions.suggestion models.id Some
                ltac:(by intros i j [= ->])
                ltac:(by intros sid d p [= <-])
                id (doc_following u)
                (called (c_get id) (called (c_exists id) s)))
      as (us & s' & Hrun & Hidx & _ & Hnd & Hus).
    exists us, s'. split.
    { apply try_except_ok. unfold suggestions.get_user_suggestions_body.
      by rewrite (exists_then_get _ _ s id u). }
    split; [done|]. split; [done|].
    intros p. rewrite Hus. simpl. unfold suggested. split.
    + intros (sid & d & Hsd & Hne & Hnf & Hd & [= <-]). exists sid, d.
      eauto 10.
    + intros (sid & d & (Hsd & Hne & Hnf & _) & Hd & ->). exists sid, d.
      eauto 10.
  - destruct (traversal_run main.suggestion main.id (λ i, i)
                ltac:(done) ltac:(by intros sid d p [= <-])
                id (doc_following u)
                (called (c_get id) (called (c_exists id) s)))
      as (us & s' & Hrun & Hidx & _ & Hnd & Hus).
    exists us, s'. split.
    { apply try_except_ok. unfold main.get_user_suggestions_body.
      by rewrite (exists_then_get _ _ s id u). }
    split; [done|]. split; [done|].
    intros p. rewrite Hus. simpl. unfold suggested. split.
    + intros (sid & d & Hsd & Hne & Hnf & Hd & [= <-]). exists sid, d.
      eauto 10.
    + intros (sid & d & (Hsd & Hne & Hnf & _) & Hd & ->). exists sid, d.
      eauto 10.
Qed.

Lemma get_user_suggestions_spec_witness :
  index triangle !! 1 = Some (profile "U" single [2])
  ∧ (∃ us s',
       suggestions.get_user_suggestions 1 triangle = (Ok us, s')
       ∧ index s' = index triangle
       ∧ NoDup (map models.id us)
       ∧ ∀ p, p ∈ us ↔
           ∃ sid d, suggested (index triangle) 1 (profile "U" single [2]) sid
                    ∧ index triangle !! sid = Some d
                    ∧ p = {| models.id := Some sid;
                             models.name := doc_name d;
                             models.gender := doc_gender d;
                             models.status := doc_status d;
                             models.following := [];
                             models.location := doc_location d |})
  ∧ (∃ us s',
       main.get_user_suggestions 1 triangle = (Ok us, s')
       ∧ index s' = index triangle
       ∧ NoDup (map main.id us)
       ∧ ∀ p, p ∈ us ↔
           ∃ sid d, suggested (index triangle) 1 (profile "U" single [2]) sid
                    ∧ index triangle !! sid = Some d
                    ∧ p = {| main.id := sid;
                             main.gender := doc_gender d;
                             main.status := doc_status d;
                             main.location :=
                               {| main.x := models.lon (doc_location d);
                                  main.y := models.lat (doc_location d) |}
                          |}).
Proof.
  assert (H1 : index triangle !! 1 = Some (profile "U" single [2]))
    by reflexivity.
  split; [exact H1|].
  exact (get_user_suggestions_spec triangle 1 _ H1).
Defined.

(** The "suggestion exclusion" scenario: U follows A, A follows B and U;
    the suggestions for U are B alone, with B's own follows left out. *)
Example suggestion_exclusion :
  (suggestions.get_user_suggestions 1 triangle).1
  = Ok [ {| models.id := Some 3; models.name := "B";
            models.gender := female; models.status := single;
            models.following := [];
            models.location := {| models.lon := 0; models.lat := 0 |} |} ].
Proof. reflexivity. Qed.

Example suggestion_exclusion_main :
  (main.get_user_suggestions 1 triangle).1
  = Ok [ {| main.id := 3; main.gender := female; main.status := single;
            main.location := {| main.x := 0; main.y := 0 |} |} ].
Proof. reflexivity. Qed.

(** C10: every profile returned by the status-aware suggestion route, and
    by the suggestion route of 7.py, carries an empty [following] list,
    whatever the stored document holds. *)
Theorem suggestions_hide_following (s : es_state) (id : Z) (us : list User) :
  (Suggest_2.get_user_suggestions id s).1 = Ok us
  ∨ (suggestions.get_user_suggestions id s).1 = Ok us →
  Forall (λ p, models.following p = []) us.
Proof.
  assert (Hroute : ∀ (build : Z → doc → option User) (body : M (list User)),
            (∀ sid d p, build sid d = Some p → models.following p = []) →
            (∀ s0 us0 s0', body s0 = (Ok us0, s0') →
               us0 = [] ∨ ∃ ids s1, retrieve build ids s1 = (Ok us0, s0')) →
            (try_except body except_clauses s).1 = Ok us →
            Forall (λ p, models.following p = []) us).
  { intros build body Hbuild Hbody. unfold try_except.
    destruct (body s) as [[us0|e] s0] eqn:Hrun; [|done]. intros [= <-].
    destruct (Hbody _ _ _ Hrun) as [->|(ids & s1 & Hret)]; [constructor|].
    by eapply retrieve_keeps. }
  intros [H|H]; revert H.
  - apply (Hroute Suggest_2.suggestion).
    + intros sid d p. unfold Suggest_2.suggestion.
      case_bool_decide; [|done]. by intros [= <-].
    + intros s0 us0 s0'. unfold Suggest_2.get_user_suggestions_body.
      unfold bind at 1. unfold es_exists at 1.
      destruct (negb _); [done|].
      unfold bind at 1. destruct (es_get id _) as [[d|e] s1]; [|done].
      case_bool_decide; [unfold ret; intros [= <- _]; by left|].
      unfold bind at 1.
      destruct (collect_followed _ s1) as [[ids|e] s2]; [|done].
      intros Hret. right. eauto.
  - apply (Hroute suggestions.suggestion).
    + intros sid d p. by intros [= <-].
    + intros s0 us0 s0'. unfold suggestions.get_user_suggestions_body.
      unfold bind at 1. unfold es_exists at 1.
      destruct (negb _); [done|].
      unfold bind at 1. destruct (es_get id _) as [[d|e] s1]; [|done].
      unfold bind at 1.
      destruct (collect_followed _ s1) as [[ids|e] s2]; [|done].
      intros Hret. right. eauto.
Qed.

(** B is suggested to U with an empty [following], although the stored
    document of B follows U and A. *)
Lemma suggestions_hide_following_witness :
  (Suggest_2.get_user_suggestions 1 triangle).1
  = Ok [ {| models.id := Some 3; models.name := "B";
            models.gender := female; models.status := single;
            models.following := [];
            models.location := {| models.lon := 0; models.lat := 0 |} |} ]
  ∧ doc_following <$> index triangle !! 3 = Some [1; 2]
  ∧ Forall (λ p, models.following p = [])
      [ {| models.id := Some 3; models.name := "B";
           models.gender := female; models.status := single;
           models.following := [];
           models.location := {| models.lon := 0; models.lat := 0 |} |} ].
Proof.
  assert (H : (Suggest_2.get_user_suggestions 1 triangle).1
              = Ok [ {| models.id := Some 3; models.name := "B";
                        models.gender := female; models.status := single;
                        models.following := [];
                        models.location :=
                          {| models.lon := 0; models.lat := 0 |} |} ])
    by reflexivity.
  split; [exact H|]. split; [reflexivity|].
  exact (suggestions_hide_following triangle 1 _ (or_introl H)).
Defined.

(** C6: the match gate.  For an existing user whose status is not
    [single], each of the three match routes returns the empty list after
    the existence test and the read of the user's document: the trace
    gains these two calls and no search. *)
Theorem get_matches_gate `{float_unit} (s : es_state) (id : Z) (u : doc) :
  index s !! id = Some u → doc_status u ≠ single →
  ∃ s', Matches.get_matches id s = (Ok [], s')
    ∧ Matches_2.get_matches id s = (Ok [], s')
    ∧ Matches_3.get_matches id s = (Ok [], s')
    ∧ index s' = index s
    ∧ calls s' = calls s ++ [c_exists id; c_get id]
    ∧ searches (calls s') = searches (calls s).
Proof.
  intros Hid Hst. exists (called (c_get id) (called (c_exists id) s)).
  split; [|split; [|split]].
  - apply try_except_ok. unfold Matches.get_matches_body.
    rewrite (exists_then_get _ _ s id u) by done.
    by rewrite bool_decide_true.
  - apply try_except_ok. unfold Matches_2.get_matches_body.
    rewrite (exists_then_get _ _ s id u) by done.
    by rewrite bool_decide_true.
  - apply try_except_ok. unfold Matches_3.get_matches_body.
    rewrite (exists_then_get _ _ s id u) by done.
    by rewrite bool_decide_true.
  - simpl. split; [done|]. rewrite <- app_assoc. split; [done|].
    rewrite searches_app. unfold searches at 2. simpl. lia.
Qed.

Lemma get_matches_gate_witness :
  index married_user !! 1 = Some (profile "U" married [2])
  ∧ doc_status (profile "U" married [2]) ≠ single
  ∧ ∃ s', Matches.get_matches 1 married_user = (Ok [], s')
      ∧ @Matches_2.get_matches exact_floats 1 married_user = (Ok [], s')
      ∧ @Matches_3.get_matches exact_floats 1 married_user = (Ok [], s')
      ∧ index s' = index married_user
      ∧ calls s' = calls married_user ++ [c_exists 1; c_get 1]
      ∧ searches (calls s') = searches (calls married_user).
Proof.
  assert (H1 : index married_user !! 1 = Some (profile "U" married [2]))
    by reflexivity.
  assert (H2 : doc_status (profile "U" married [2]) ≠ single)
    by discriminate.
  split; [exact H1|]. split; [exact H2|].
  exact (@get_matches_gate exact_floats married_user 1 _ H1 H2).
Defined.

(** ** Sorting *)

Section stable_sort.

Context {A : Type} (lt : A → A → bool).

(** [lt] as a strict weak order: it is asymmetric, and "not above" is
    transitive. *)
Hypothesis lt_asym : ∀ a b, lt a b = true → lt b a = false.
Hypothesis le_trans :
  ∀ a b c, lt b a = false → lt c b = false → lt c a = false.

Lemma insert_sorted_Permutation (x : A) (l : list A) :
  insert_sorted lt x l ≡ₚ x :: l.
Proof.
  induction l as [|y l IH]; simpl; [done|].
  destruct (lt y x); [|done]. rewrite IH. apply Permutation_swap.
Qed.

Lemma insert_sorted_StronglySorted (x : A) (l : list A) :
  StronglySorted (λ a b, lt b a = false) l →
  StronglySorted (λ a b, lt b a = false) (insert_sorted lt x l).
Proof.
  induction 1 as [|y l Hl IH Hy]; simpl.
  - repeat constructor.
  - destruct (lt y x) eqn:Hyx.
    + constructor; [done|].
      rewrite insert_sorted_Permutation. constructor; [|done].
      by apply lt_asym.
    + constructor; [by constructor|]. constructor; [done|].
      eapply Forall_impl; [exact Hy|]. intros z Hz.
      by apply (le_trans x y z).
Qed.

(** Elements that [lt] does not separate keep their relative order. *)
Lemma insert_sorted_stable (P : A → Prop) `{!∀ a, Decision (P a)}
    (x : A) (l : list A) :
  (∀ a b, P a → P b → lt a b = false) →
  filter P (insert_sorted lt x l) = filter P (x :: l).
Proof.
  intros HP. induction l as [|y l IH]; simpl; [done|].
  destruct (lt y x) eqn:Hyx; [|done].
  rewrite filter_cons, IH, !filter_cons.
  destruct (decide (P y)) as [Hy|Hy], (decide (P x)) as [Hx|Hx]; try done.
  by rewrite HP in Hyx.
Qed.

End stable_sort.

Section list_sort.

Context {A K : Type} (key : A → K) (lt : K → K → bool).
Hypothesis lt_asym : ∀ a b, lt a b = true → lt b a = false.
Hypothesis le_trans :
  ∀ a b c, lt b a = false → lt c b = false → lt c a = false.

Lemma list_sort_Permutation (l : list A) : list_sort key lt l ≡ₚ l.
Proof.
  induction l as [|x l IH]; simpl; [done|].
  unfold list_sort in *. simpl.
  by rewrite insert_sorted_Permutation, IH.
Qed.

Lemma list_sort_StronglySorted (l : list A) :
  StronglySorted (λ a b, lt (key b) (key a) = false) (list_sort key lt l).
Proof.
  induction l as [|x l IH]; simpl; [constructor|].
  unfold list_sort in *. simpl.
  apply (insert_sorted_StronglySorted (λ a b, lt (key a) (key b))); eauto.
Qed.

Lemma list_sort_stable `{!EqDecision K} (k : K) (l : list A) :
  lt k k = false →
  filter (λ a, key a = k) (list_sort key lt l) = filter (λ a, key a = k) l.
Proof.
  intros Hk. induction l as [|x l IH]; simpl; [done|].
  unfold list_sort in *. simpl.
  rewrite (insert_sorted_stable (λ a b, lt (key a) (key b))).
  - by rewrite !filter_cons, IH.
  - by intros a b -> ->.
Qed.

(** With a comparison that never holds, nothing moves. *)
Lemma list_sort_unordered (l : list A) :
  (∀ a b, lt (key a) (key b) = false) → list_sort key lt l = l.
Proof.
  intros Hlt. induction l as [|x l IH]; simpl; [done|].
  unfold list_sort in *. simpl. rewrite IH.
  destruct l as [|y l]; simpl; [done|]. by rewrite Hlt.
Qed.

End list_sort.

(** *** The tuple comparison *)

Lemma tuple_lt_false (k1 k2 : Z * R) : tuple_lt k2 k1 = false ↔ key_le k1 k2.
Proof.
  unfold tuple_lt, key_le. destruct k1 as [a1 d1], k2 as [a2 d2]. simpl.
  destruct (decide (a2 = a1)) as [->|Hne].
  - destruct (decide (d2 = d1)) as [->|Hd].
    + split; [intros _; right; split; [done|lra]|done].
    + rewrite bool_decide_eq_false. split.
      * intros H. right. split; [done|lra].
      * intros [?|[_ ?]]; [lia|lra].
  - rewrite bool_decide_eq_false. split.
    + intros H. left. lia.
    + intros [?|[? _]]; lia.
Qed.

Lemma tuple_lt_irrefl (k : Z * R) : tuple_lt k k = false.
Proof. apply tuple_lt_false. right. split; [done|lra]. Qed.

Lemma tuple_lt_asym (k1 k2 : Z * R) :
  tuple_lt k1 k2 = true → tuple_lt k2 k1 = false.
Proof.
  intros H. apply tuple_lt_false.
  destruct (tuple_lt k2 k1) eqn:H'; [|by apply tuple_lt_false].
  revert H H'. unfold tuple_lt, key_le.
  destruct k1 as [a1 d1], k2 as [a2 d2]. simpl.
  destruct (decide (a1 = a2)) as [->|?], (decide (a2 = a2)); try done.
  - destruct (decide (d1 = d2)), (decide (d2 = d1)); try done.
    rewrite !bool_decide_eq_true. lra.
  - destruct (decide (a2 = a1)); [done|]. rewrite !bool_decide_eq_true. lia.
Qed.

Lemma tuple_le_trans (k1 k2 k3 : Z * R) :
  tuple_lt k2 k1 = false → tuple_lt k3 k2 = false → tuple_lt k3 k1 = false.
Proof.
  rewrite !tuple_lt_false. unfold key_le.
  intros [?|[? ?]] [?|[? ?]]; [left; lia..|]. right. split; [lia|lra].
Qed.

(** ** Geo math *)

Lemma atan2_0_1 : atan2 0 1 = 0%R.
Proof.
  unfold atan2. destruct (decide (0 < 1)%R) as [_|H]; [|lra].
  replace (0 / 1)%R with 0%R by lra. apply atan_0.
Qed.

(** The haversine term [a] does not change when the two points are
    exchanged. *)
Lemma haversine_a_sym (lat1 lon1 lat2 lon2 : R) :
  (sin ((lat2 - lat1) / 2) ^ 2
   + cos lat1 * cos lat2 * sin ((lon2 - lon1) / 2) ^ 2
   = sin ((lat1 - lat2) / 2) ^ 2
     + cos lat2 * cos lat1 * sin ((lon1 - lon2) / 2) ^ 2)%R.
Proof.
  replace ((lat1 - lat2) / 2)%R with (- ((lat2 - lat1) / 2))%R by lra.
  replace ((lon1 - lon2) / 2)%R with (- ((lon2 - lon1) / 2))%R by lra.
  rewrite !sin_neg. ring.
Qed.


(** In exact arithmetic the haversine term lies between 0 and 1. *)
Lemma haversine_a_bounds (lat1 lat2 dlon : R) :
  (0 <= sin ((lat2 - lat1) / 2) ^ 2
        + cos lat1 * cos lat2 * sin (dlon / 2) ^ 2 <= 1)%R.
Proof.
  assert (Hhalf : ∀ x, (sin (x / 2) ^ 2 = (1 - cos x) / 2)%R).
  { intros x. replace x with (2 * (x / 2))%R at 2 by lra.
    rewrite cos_2a_sin. simpl. lra. }
  rewrite !Hhalf, cos_minus.
  pose proof (sin2_cos2 lat1) as H1. pose proof (sin2_cos2 lat2) as H2.
  unfold Rsqr in H1, H2.
  pose proof (COS_bound dlon) as [Hlo Hhi].
  set (s1 := sin lat1) in *. set (c1 := cos lat1) in *.
  set (s2 := sin lat2) in *. set (c2 := cos lat2) in *.
  set (k := cos dlon) in *.
  assert (Hk : (0 <= (1 - k * k) * (c2 * c2))%R).
  { apply Rmult_le_pos; [nra|]. apply Rle_0_sqr. }
  pose proof (Rle_0_sqr (s1 - s2)) as Ha.
  pose proof (Rle_0_sqr (s1 + s2)) as Hb.
  pose proof (Rle_0_sqr (c1 - k * c2)) as Hc.
  pose proof (Rle_0_sqr (c1 + k * c2)) as Hd.
  unfold Rsqr in Ha, Hb, Hc, Hd.
  split; nra.
Qed.

(** So the unit that does not round never takes [math.sqrt] of a negative
    number: with it the function of Matches 2.py returns the haversine
    distance.  A [ValueError] of the function comes from rounding. *)
Lemma calculate_distance_exact (lat1 lon1 lat2 lon2 : R) :
  @Matches_2.calculate_distance exact_floats lat1 lon1 lat2 lon2
  = Ok (calculate_distance lat1 lon1 lat2 lon2).
Proof.
  pose proof (haversine_a_bounds (radians lat1) (radians lat2)
                (radians lon2 - radians lon1)) as [Hlo Hhi].
  unfold Matches_2.calculate_distance, calculate_distance, pow_2, math_sqrt.
  simpl.
  destruct (decide (_ < 0)%R) as [Hneg|_]; [lra|]. simpl.
  destruct (decide (_ < 0)%R) as [Hneg|_]; [lra|]. done.
Qed.

(** From the north pole, the point at longitude 180 on latitude 90 is
    the pole itself, and a point one degree south is not. *)
Lemma north_pole_distances :
  calculate_distance 90 0 90 180 = 0%R ∧ (0 < calculate_distance 90 0 89 0)%R.
Proof.
  assert (H90 : radians 90 = (PI / 2)%R) by (unfold radians; lra).
  pose proof PI_RGT_0 as Hpi.
  split.
  - unfold calculate_distance. cbv zeta. rewrite H90.
    replace ((PI / 2 - PI / 2) / 2)%R with 0%R by lra.
    rewrite sin_0, cos_PI2.
    replace (0 ^ 2 + 0 * 0 * sin ((radians 180 - radians 0) / 2) ^ 2)%R
      with 0%R by ring.
    replace (1 - 0)%R with 1%R by lra.
    rewrite sqrt_0, sqrt_1, atan2_0_1. lra.
  - unfold calculate_distance. cbv zeta. rewrite H90.
    replace ((radians 0 - radians 0) / 2)%R with 0%R by lra.
    rewrite sin_0, cos_PI2.
    set (t := sin ((radians 89 - PI / 2) / 2)).
    replace (t ^ 2 + 0 * cos (radians 89) * 0 ^ 2)%R with (t ^ 2)%R by ring.
    assert (Ht : (t < 0)%R).
    { unfold t.
      replace ((radians 89 - PI / 2) / 2)%R with (- (PI / 360))%R
        by (unfold radians; lra).
      rewrite sin_neg.
      assert (0 < sin (PI / 360))%R by (apply sin_gt_0; lra). lra. }
    assert (Ha : (0 < sqrt (t ^ 2))%R) by (apply sqrt_lt_R0; nra).
    pose proof (sqrt_pos (1 - t ^ 2)) as Hb.
    assert (0 < atan2 (sqrt (t ^ 2)) (sqrt (1 - t ^ 2)))%R; [|lra].
    unfold atan2.
    destruct (decide (0 < sqrt (1 - t ^ 2))%R) as [Hx|Hx].
    + rewrite <- atan_0. apply atan_increasing.
      by apply Rdiv_lt_0_compat.
    + destruct (decide (sqrt (1 - t ^ 2) < 0)%R) as [?|_]; [lra|].
      destruct (decide (0 < sqrt (t ^ 2))%R) as [_|?]; lra.
Qed.

(** ** Match ranking *)

Lemma StronglySorted_weaken {A} (R1 R2 : A → A → Prop) (l : list A) :
  (∀ a b, R1 a b → R2 a b) → StronglySorted R1 l → StronglySorted R2 l.
Proof.
  intros HR. induction 1 as [|x l Hl IH Hx]; constructor; [done|].
  eapply Forall_impl; [exact Hx|]. intros y. apply HR.
Qed.

(** A search without sort clauses returns the matching documents in store
    order. *)
Lemma search_hits_unsorted (idx : gmap Z doc) (q : query) (size : Z) :
  search_hits idx q [] size
  = take (Z.to_nat size)
      (filter (λ h, query_matches q h = true) (map_to_list idx)).
Proof. unfold search_hits. by rewrite list_sort_unordered. Qed.

(** The documents the match query selects: the singles other than [id]. *)
Lemma matches_query_selects (idx : gmap Z doc) (id : Z) (h : hit) :
  h ∈ filter (λ h, query_matches (matches_query id) h = true) (map_to_list idx)
  ↔ idx !! h.1 = Some h.2 ∧ doc_status h.2 = single ∧ h.1 ≠ id.
Proof.
  rewrite list_elem_of_filter. destruct h as [i d].
  rewrite elem_of_map_to_list. unfold query_matches, matches_query. simpl.
  rewrite !andb_true_iff, !bool_decide_eq_true. tauto.
Qed.

(** *** The scoring loop *)

Section scoring_loop.

Context (score : hit → result scored).

(** The loop appends the entry of every hit, or stops at the first hit
    whose scoring raises. *)
Lemma scoring_loop_run (hits : list hit) (acc : list scored) (s : es_state) :
  (∃ ms, Forall2 (λ h m, score h = Ok m) hits ms
         ∧ for_each hits
             (λ matches hit, m <- lift (score hit) ;; ret (matches ++ [m]))
             acc s
           = (Ok (acc ++ ms), s))
  ∨ (∃ h e, h ∈ hits ∧ score h = Raise e
            ∧ for_each hits
                (λ matches hit,
                   m <- lift (score hit) ;; ret (matches ++ [m]))
                acc s
              = (Raise e, s)).
Proof.
  revert acc. induction hits as [|h hits IH]; intros acc; simpl.
  - left. exists []. split; [constructor|]. by rewrite app_nil_r.
  - unfold bind at 1. unfold bind at 1, lift at 1.
    destruct (score h) as [m|e] eqn:Hh; simpl.
    + destruct (IH (acc ++ [m]))
        as [(ms & Hms & Hrun)|(h' & e & Hin & He & Hrun)].
      * left. exists (m :: ms). split; [by constructor|].
        rewrite Hrun. by rewrite <- app_assoc.
      * right. exists h', e. split; [by right|]. done.
    + right. exists h, e. split; [by left|]. done.
Qed.

(** What follows the search in a client-side route. *)
Lemma client_side_run (hits : list hit) (s : es_state) :
  (∃ ms, Forall2 (λ h m, score h = Ok m) hits ms
         ∧ try_except
             (matches <- for_each hits
                           (λ matches hit,
                              m <- lift (score hit) ;;
                              ret (matches ++ [m]))
                           [] ;;
              let matches := list_sort sort_key tuple_lt matches in
              ret (map user matches))
             matches_except_clauses s
           = (Ok (map user (list_sort sort_key tuple_lt ms)), s))
  ∨ (∃ h e, h ∈ hits ∧ score h = Raise e
            ∧ try_except
                (matches <- for_each hits
                              (λ matches hit,
                                 m <- lift (score hit) ;;
                                 ret (matches ++ [m]))
                              [] ;;
                 let matches := list_sort sort_key tuple_lt matches in
                 ret (map user matches))
                matches_except_clauses s
              = (Raise (matches_except_clauses e), s)).
Proof.
  destruct (scoring_loop_run hits [] s)
    as [(ms & Hms & Hrun)|(h & e & Hin & He & Hrun)].
  - left. exists ms. split; [done|].
    unfold try_except. unfold bind at 1. by rewrite Hrun.
  - right. exists h, e. split; [done|]. split; [done|].
    unfold try_except. unfold bind at 1. by rewrite Hrun.
Qed.

End scoring_loop.

(** *** What one hit is scored with *)

Section scores.

Context `{float_unit}.

Lemma calculate_distance_raises (lat1 lon1 lat2 lon2 : R) (e : exn) :
  Matches_2.calculate_distance lat1 lon1 lat2 lon2 = Raise e →
  e = ValueError str_ValueError ∨ e = OverflowError str_OverflowError.
Proof.
  unfold Matches_2.calculate_distance, pow_2, math_sqrt. cbv zeta.
  destruct (fl_square _); simpl; [|intros [= <-]; by right].
  destruct (fl_square _); simpl; [|intros [= <-]; by right].
  destruct (decide (_ < 0)%R); simpl; [intros [= <-]; by left|].
  destruct (decide (_ < 0)%R); simpl; [intros [= <-]; by left|].
  done.
Qed.

Lemma score_2_Ok (user_location : R * R) (user_hobbies : gset string)
    (h : hit) (m : scored) :
  Matches_2.score user_location user_hobbies h = Ok m →
  user m = User_of h.1 h.2 (xy_location h.2)
  ∧ common_hobbies m
    = Z.of_nat
        (size (user_hobbies ∩ list_to_set (default [] (doc_hobbies h.2))))
  ∧ Matches_2.calculate_distance user_location.2 user_location.1
      (default 0%R (doc_y h.2)) (default 0%R (doc_x h.2))
    = Ok (distance m).
Proof.
  unfold Matches_2.score. cbv zeta. simpl.
  destruct (Matches_2.calculate_distance _ _ _ _) as [d|e]; simpl; [|done].
  by intros [= <-].
Qed.

Lemma score_2_Raise (user_location : R * R) (user_hobbies : gset string)
    (h : hit) (e : exn) :
  Matches_2.score user_location user_hobbies h = Raise e →
  Matches_2.calculate_distance user_location.2 user_location.1
    (default 0%R (doc_y h.2)) (default 0%R (doc_x h.2))
  = Raise e.
Proof.
  unfold Matches_2.score. cbv zeta. simpl.
  destruct (Matches_2.calculate_distance _ _ _ _) as [d|e']; simpl; [done|].
  by intros [= <-].
Qed.

Lemma score_3_Ok (user_location : R * R) (user_hobbies : gset string)
    (h : hit) (m : scored) :
  Matches_3.score user_location user_hobbies h = Ok m →
  user m = User_of h.1 h.2 (xy_location h.2)
  ∧ common_hobbies m
    = Z.of_nat
        (size (user_hobbies ∩ list_to_set (default [] (doc_hobbies h.2))))
  ∧ (dx_2 <~ pow_2 (fl_sub user_location.1 (default 0%R (doc_x h.2))) ;;
     dy_2 <~ pow_2 (fl_sub user_location.2 (default 0%R (doc_y h.2))) ;;
     Ok (fl_root (fl_add dx_2 dy_2)))
    = Ok (distance m).
Proof.
  unfold Matches_3.score. cbv zeta. simpl.
  destruct (pow_2 _) as [dx|e]; simpl; [|done].
  destruct (pow_2 _) as [dy|e]; simpl; [|done].
  by intros [= <-].
Qed.

Lemma score_3_Raise (user_location : R * R) (user_hobbies : gset string)
    (h : hit) (e : exn) :
  Matches_3.score user_location user_hobbies h = Raise e →
  (dx_2 <~ pow_2 (fl_sub user_location.1 (default 0%R (doc_x h.2))) ;;
   dy_2 <~ pow_2 (fl_sub user_location.2 (default 0%R (doc_y h.2))) ;;
   Ok (fl_root (fl_add dx_2 dy_2)))
  = Raise e
  ∧ e = OverflowError str_OverflowError.
Proof.
  unfold Matches_3.score, pow_2. cbv zeta. simpl.
  destruct (fl_square _); simpl; [|by intros [= <-]].
  destruct (fl_square _); simpl; [|by intros [= <-]].
  done.
Qed.

(** The two client-side routes, for an existing single requester. *)
Lemma get_matches_2_run (s : es_state) (id : Z) (u : doc) :
  index s !! id = Some u → doc_status u = single →
  let score :=
    Matches_2.score (default 0%R (doc_x u), default 0%R (doc_y u))
      (list_to_set (default [] (doc_hobbies u))) in
  let hits := search_hits (index s) (matches_query id) [] 10000 in
  let s' := called (c_search (matches_query id) [] 10000)
              (called (c_get id) (called (c_exists id) s)) in
  (∃ ms, Forall2 (λ h m, score h = Ok m) hits ms
         ∧ Matches_2.get_matches id s
           = (Ok (map user (list_sort sort_key tuple_lt ms)), s'))
  ∨ (∃ h e, h ∈ hits ∧ score h = Raise e
            ∧ Matches_2.get_matches id s
              = (Raise (matches_except_clauses e), s')).
Proof.
  intros Hid Hst score hits s'.
  assert (Hrun : Matches_2.get_matches id s
            = try_except
                (matches <- for_each hits
                              (λ matches hit,
                                 m <- lift (score hit) ;;
                                 ret (matches ++ [m]))
                              [] ;;
                 let matches := list_sort sort_key tuple_lt matches in
                 ret (map user matches))
                matches_except_clauses s').
  { unfold Matches_2.get_matches, Matches_2.get_matches_body, try_except.
    rewrite (exists_then_get _ _ s id u) by done.
    rewrite bool_decide_false by (by rewrite Hst; intros ?). done. }
  rewrite Hrun. apply client_side_run.
Qed.

Lemma get_matches_3_run (s : es_state) (id : Z) (u : doc) :
  index s !! id = Some u → doc_status u = single →
  let score :=
    Matches_3.score (default 0%R (doc_x u), default 0%R (doc_y u))
      (list_to_set (default [] (doc_hobbies u))) in
  let hits := search_hits (index s) (matches_query id) [] 10000 in
  let s' := called (c_search (matches_query id) [] 10000)
              (called (c_get id) (called (c_exists id) s)) in
  (∃ ms, Forall2 (λ h m, score h = Ok m) hits ms
         ∧ Matches_3.get_matches id s
           = (Ok (map user (list_sort sort_key tuple_lt ms)), s'))
  ∨ (∃ h e, h ∈ hits ∧ score h = Raise e
            ∧ Matches_3.get_matches id s
              = (Raise (matches_except_clauses e), s')).
Proof.
  intros Hid Hst score hits s'.
  assert (Hrun : Matches_3.get_matches id s
            = try_except
                (matches <- for_each hits
                              (λ matches hit,
                                 m <- lift (score hit) ;;
                                 ret (matches ++ [m]))
                              [] ;;
                 let matches := list_sort sort_key tuple_lt matches in
                 ret (map user matches))
                matches_except_clauses s').
  { unfold Matches_3.get_matches, Matches_3.get_matches_body, try_except.
    rewrite (exists_then_get _ _ s id u) by done.
    rewrite bool_decide_false by (by rewrite Hst; intros ?). done. }
  rewrite Hrun. apply client_side_run.
Qed.

End scores.

(** *** The order of the result *)

(** What [matches.sort] does to any list of scored entries. *)
Lemma client_ranking (candidates : list scored) :
  list_sort sort_key tuple_lt candidates ≡ₚ candidates
  ∧ StronglySorted
      (λ m1 m2,
         common_hobbies m2 < common_hobbies m1
         ∨ (common_hobbies m1 = common_hobbies m2
            ∧ (distance m1 <= distance m2)%R))
      (list_sort sort_key tuple_lt candidates)
  ∧ ∀ (c : Z) (d : R),
      filter (λ m, common_hobbies m = c ∧ distance m = d)
        (list_sort sort_key tuple_lt candidates)
      = filter (λ m, common_hobbies m = c ∧ distance m = d) candidates.
Proof.
  split; [apply list_sort_Permutation|]. split.
  - eapply StronglySorted_weaken;
      [|apply list_sort_StronglySorted;
          [apply tuple_lt_asym|apply tuple_le_trans]].
    intros a b Hab. apply tuple_lt_false in Hab.
    unfold key_le, sort_key in Hab. simpl in Hab.
    destruct Hab as [?|[? ?]]; [left; lia|right; split; [lia|done]].
  - intros c d.
    pose proof (list_sort_stable sort_key tuple_lt (- c, d) candidates
                  (tuple_lt_irrefl _)) as Hst.
    assert (Hiff : ∀ m, sort_key m = (- c, d)
                        ↔ common_hobbies m = c ∧ distance m = d).
    { intros m. unfold sort_key. split.
      - intros [= ? ?]. split; [lia|done].
      - intros [-> ->]. done. }
    rewrite <- !(list_filter_iff _ _ _ Hiff). exact Hst.
Qed.

(** Two entries that differ in the number of common hobbies are ranked
    on it alone. *)
Lemma sort_two_entries (m1 m2 : scored) :
  common_hobbies m2 < common_hobbies m1 →
  list_sort sort_key tuple_lt [m1; m2] = [m1; m2]
  ∧ list_sort sort_key tuple_lt [m2; m1] = [m1; m2].
Proof.
  intros Hlt. unfold list_sort, sort_key, tuple_lt. simpl.
  destruct (decide (- common_hobbies m2 = - common_hobbies m1)) as [?|_];
    [lia|].
  destruct (decide (- common_hobbies m1 = - common_hobbies m2)) as [?|_];
    [lia|].
  rewrite bool_decide_false by lia. rewrite bool_decide_true by lia. done.
Qed.

(** From the run of a client-side route to its specification. *)
Lemma client_side_ranked (score : hit → result scored)
    (distance_of : hit → result R) (user_hobbies : gset string)
    (hits : list hit) (r : result (list User) * es_state) (s' : es_state) :
  (∀ h m, score h = Ok m →
     user m = User_of h.1 h.2 (xy_location h.2)
     ∧ common_hobbies m
       = Z.of_nat
           (size (user_hobbies
                  ∩ list_to_set (default [] (doc_hobbies h.2))))
     ∧ distance_of h = Ok (distance m)) →
  (∀ h e, score h = Raise e →
     distance_of h = Raise e
     ∧ ∃ text, e = ValueError text ∨ e = OverflowError text) →
  (∃ ms, Forall2 (λ h m, score h = Ok m) hits ms
         ∧ r = (Ok (map user (list_sort sort_key tuple_lt ms)), s'))
  ∨ (∃ h e, h ∈ hits ∧ score h = Raise e
            ∧ r = (Raise (matches_except_clauses e), s')) →
  ranked hits user_hobbies distance_of r.1.
Proof.
  intros Hok Hraise [(ms & Hms & ->)|(h & e & Hin & He & ->)]; simpl.
  - left. exists ms, (list_sort sort_key tuple_lt ms).
    destruct (client_ranking ms) as (Hp & Hs & Hk).
    split; [|done].
    eapply Forall2_impl; [exact Hms|]. intros h m Hm.
    destruct (Hok h m Hm) as (Hu & Hc & Hd).
    split; [|done]. rewrite Hu. unfold User_of, xy_location.
    by destruct (doc_x h.2), (doc_y h.2).
  - right. destruct (Hraise h e He) as (Hd & text & [-> | ->]);
      exists h, text; eauto.
Qed.


(** *** Exact arithmetic *)

Lemma score_2_exact (user_location : R * R) (user_hobbies : gset string)
    (h : hit) :
  @Matches_2.score exact_floats user_location user_hobbies h
  = Ok (exact_score user_location user_hobbies h).
Proof.
  unfold Matches_2.score. cbv zeta. by rewrite calculate_distance_exact.
Qed.

Lemma score_3_exact (user_location : R * R) (user_hobbies : gset string)
    (h : hit) :
  @Matches_3.score exact_floats user_location user_hobbies h
  = Ok (planar_score user_location user_hobbies h).
Proof. done. Qed.

Lemma scores_total (score : hit → result scored) (f : hit → scored)
    (hits : list hit) (ms : list scored) :
  (∀ h, score h = Ok (f h)) →
  Forall2 (λ h m, score h = Ok m) hits ms → ms = map f hits.
Proof.
  intros Hf. induction 1 as [|h m hits ms Hm _ IH]; [done|].
  rewrite Hf in Hm. injection Hm as <-. simpl. by rewrite IH.
Qed.

(** Without rounding no distance raises, and the two routes succeed. *)
Lemma get_matches_2_exact_run (s : es_state) (id : Z) (u : doc) :
  index s !! id = Some u → doc_status u = single →
  @Matches_2.get_matches exact_floats id s
  = (Ok (map user
           (list_sort sort_key tuple_lt
              (map (exact_score
                      (default 0%R (doc_x u), default 0%R (doc_y u))
                      (list_to_set (default [] (doc_hobbies u))))
                 (search_hits (index s) (matches_query id) [] 10000)))),
     called (c_search (matches_query id) [] 10000)
       (called (c_get id) (called (c_exists id) s))).
Proof.
  intros Hid Hst.
  destruct (@get_matches_2_run exact_floats s id u Hid Hst)
    as [(ms & Hms & ->)|(h & e & _ & He & _)].
  - by rewrite (scores_total _ _ _ _ (score_2_exact _ _) Hms).
  - by rewrite score_2_exact in He.
Qed.

Lemma get_matches_3_exact_run (s : es_state) (id : Z) (u : doc) :
  index s !! id = Some u → doc_status u = single →
  @Matches_3.get_matches exact_floats id s
  = (Ok (map user
           (list_sort sort_key tuple_lt
              (map (planar_score
                      (default 0%R (doc_x u), default 0%R (doc_y u))
                      (list_to_set (default [] (doc_hobbies u))))
                 (search_hits (index s) (matches_query id) [] 10000)))),
     called (c_search (matches_query id) [] 10000)
       (called (c_get id) (called (c_exists id) s))).
Proof.
  intros Hid Hst.
  destruct (@get_matches_3_run exact_floats s id u Hid Hst)
    as [(ms & Hms & ->)|(h & e & _ & He & _)].
  - by rewrite (scores_total _ _ _ _ (score_3_exact _ _) Hms).
  - by rewrite score_3_exact in He.
Qed.

(** The "match ordering" scenario: X, with two common hobbies, comes
    before Y, with one, although Y is nearer. *)
Example match_ordering_ranks_X_first :
  (@Matches_2.get_matches exact_floats 1 match_ordering).1
  = Ok [ User_of 2 (located "X" 0 1 ["reading"; "hiking"; "cooking"])
           {| models.lon := 0; models.lat := 1 |};
         User_of 3 (located "Y" 0 0.01 ["hiking"])
           {| models.lon := 0; models.lat := 0.01 |} ]
  ∧ (@Matches_3.get_matches exact_floats 1 match_ordering).1
    = Ok [ User_of 2 (located "X" 0 1 ["reading"; "hiking"; "cooking"])
             {| models.lon := 0; models.lat := 1 |};
           User_of 3 (located "Y" 0 0.01 ["hiking"])
             {| models.lon := 0; models.lat := 0.01 |} ].
Proof.
  rewrite (get_matches_2_exact_run match_ordering 1
             (located "R" 0 0 ["reading"; "hiking"])) by reflexivity.
  rewrite (get_matches_3_exact_run match_ordering 1
             (located "R" 0 0 ["reading"; "hiking"])) by reflexivity.
  split; reflexivity.
Qed.


(** In the same scenario, whatever the float unit: the routes put X
    before Y, or fail. *)
Example match_ordering_any_unit `{float_unit} :
  Forall (λ r : result (list User) * es_state,
            returned_ids r = Some [2; 3] ∨ returned_ids r = None)
    [Matches_2.get_matches 1 match_ordering;
     Matches_3.get_matches 1 match_ordering].
Proof.
  assert (Hhits :
    search_hits (index match_ordering) (matches_query 1) [] 10000
    = [(3, located "Y" 0 0.01 ["hiking"]);
       (2, located "X" 0 1 ["reading"; "hiking"; "cooking"])]).
  { rewrite search_hits_unsorted. reflexivity. }
  assert (Hany : ∀ (score : hit → result scored)
                   (r : result (list User) * es_state),
            (∀ h m, score h = Ok m →
               user m = User_of h.1 h.2 (xy_location h.2)
               ∧ common_hobbies m
                 = Z.of_nat
                     (size ((list_to_set ["reading"; "hiking"]
                             : gset string)
                            ∩ list_to_set (default [] (doc_hobbies h.2))))) →
            (∃ ms, Forall2 (λ h m, score h = Ok m)
                     (search_hits (index match_ordering) (matches_query 1)
                        [] 10000) ms
                   ∧ r.1 = Ok (map user (list_sort sort_key tuple_lt ms)))
            ∨ (∃ e, r.1 = Raise e) →
            returned_ids r = Some [2; 3] ∨ returned_ids r = None).
  { intros score r Hscore [(ms & Hms & Hr)|(e & Hr)]; unfold returned_ids;
      rewrite Hr; [|by right].
    left. rewrite Hhits in Hms.
    apply Forall2_cons_inv_l in Hms as (m3 & ms3 & H3 & Hms & ->).
    apply Forall2_cons_inv_l in Hms as (m2 & ms2 & H2 & Hms & ->).
    apply Forall2_nil_inv_l in Hms as ->.
    apply Hscore in H3 as (Hu3 & Hc3). apply Hscore in H2 as (Hu2 & Hc2).
    assert (Hlt : common_hobbies m3 < common_hobbies m2).
    { rewrite Hc2, Hc3. vm_compute. done. }
    destruct (sort_two_entries m2 m3 Hlt) as [_ ->].
    simpl. by rewrite Hu3, Hu2. }
  constructor; [|constructor; [|constructor]].
  - apply (Hany (Matches_2.score (0%R, 0%R)
                   (list_to_set ["reading"; "hiking"]))).
    + intros h m Hm. apply score_2_Ok in Hm as (? & ? & _). done.
    + destruct (get_matches_2_run match_ordering 1
                  (located "R" 0 0 ["reading"; "hiking"]) eq_refl eq_refl)
        as [(ms & Hms & ->)|(h & e & _ & _ & ->)]; eauto.
  - apply (Hany (Matches_3.score (0%R, 0%R)
                   (list_to_set ["reading"; "hiking"]))).
    + intros h m Hm. apply score_3_Ok in Hm as (? & ? & _). done.
    + destruct (get_matches_3_run match_ordering 1
                  (located "R" 0 0 ["reading"; "hiking"]) eq_refl eq_refl)
        as [(ms & Hms & ->)|(h & e & _ & _ & ->)]; eauto.
Qed.

(** [test_get_matches] of Test2.py: for user 1 the match with two common
    hobbies, user 3, comes before user 2, who has one. *)
Example test_get_matches :
  returned_ids (@Matches_2.get_matches exact_floats 1 existing_users)
  = Some [3; 2].
Proof.
  unfold returned_ids.
  rewrite (get_matches_2_exact_run existing_users 1
             (located "John Doe" (-122.4194) 37.7749 ["reading"; "hiking"]))
    by reflexivity.
  reflexivity.
Qed.

(** ** The two formulations of the match ranking *)

Lemma get_matches_1_run (s : es_state) (id : Z) (u : doc) :
  index s !! id = Some u → doc_status u = single →
  let sort := [_script_desc (default [] (doc_hobbies u));
               _geo_distance_asc (default 0%R (doc_y u))
                 (default 0%R (doc_x u))] in
  Matches.get_matches id s
  = (Ok (map (λ hit : hit, User_of hit.1 hit.2 (xy_location hit.2))
           (search_hits (index s) (matches_query id) sort 10000)),
     called (c_search (matches_query id) sort 10000)
       (called (c_get id) (called (c_exists id) s))).
Proof.
  intros Hid Hst. apply try_except_ok. unfold Matches.get_matches_body.
  rewrite (exists_then_get _ _ s id u) by done.
  rewrite bool_decide_false by (by rewrite Hst; intros ?). done.
Qed.

(** On a hobby list without repetitions the script counts the common
    hobbies; a repeated entry is counted once per occurrence. *)
Lemma script_common_NoDup (user_hobbies doc_hobbies : list string) :
  NoDup user_hobbies →
  script_common user_hobbies doc_hobbies
  = Z.of_nat (size (list_to_set user_hobbies ∩ list_to_set doc_hobbies
                    : gset string)).
Proof.
  unfold script_common.
  assert (H : ∀ l acc,
    foldl (λ common hobby,
             if bool_decide (hobby ∈ doc_hobbies) then common + 1 else common)
          acc l
    = acc + Z.of_nat (length (filter (λ h, h ∈ doc_hobbies) l))).
  { induction l as [|h l IH]; intros acc; simpl; [lia|].
    rewrite IH, filter_cons. case_bool_decide; destruct (decide _); try done.
    all: simpl length; lia. }
  intros Hnd. rewrite H, Z.add_0_l. f_equal.
  rewrite <- (size_list_to_set (C := gset string))
    by (by apply NoDup_filter).
  f_equal. apply set_eq. intros h.
  rewrite elem_of_list_to_set, list_elem_of_filter, elem_of_intersection,
    !elem_of_list_to_set. tauto.
Qed.

Example script_common_repeated :
  script_common ["a"; "a"; "a"; "b"; "c"] ["a"] = 3
  ∧ size (list_to_set ["a"; "a"; "a"; "b"; "c"] ∩ list_to_set ["a"]
          : gset string) = 1%nat.
Proof. split; reflexivity. Qed.

(** C7: what the code does on [repeated_hobby].  The search-side route
    ranks A (2) first: the script counts A's one shared hobby three times,
    against two for B (3).  The client-side route ranks B first: two
    common hobbies against one.  The two results differ, whatever the
    float unit: the client-side route returns B before A or fails. *)
Theorem formulations_disagree :
  returned_ids (Matches.get_matches 1 repeated_hobby) = Some [2; 3]
  ∧ returned_ids (@Matches_2.get_matches exact_floats 1 repeated_hobby)
    = Some [3; 2]
  ∧ (Matches.get_matches 1 repeated_hobby).1
    ≠ (@Matches_2.get_matches exact_floats 1 repeated_hobby).1
  ∧ ∀ unit : float_unit,
      (returned_ids (@Matches_2.get_matches unit 1 repeated_hobby)
       = Some [3; 2]
       ∨ returned_ids (@Matches_2.get_matches unit 1 repeated_hobby) = None)
      ∧ (Matches.get_matches 1 repeated_hobby).1
        ≠ (@Matches_2.get_matches unit 1 repeated_hobby).1.
Proof.
  assert (H1 : returned_ids (Matches.get_matches 1 repeated_hobby)
               = Some [2; 3]).
  { unfold returned_ids.
    rewrite (get_matches_1_run repeated_hobby 1
               (located "R" 0 0 ["a"; "a"; "a"; "b"; "c"]))
      by reflexivity.
    cbv zeta. simpl fst. cbv beta iota.
    unfold search_hits.
    assert (Hhits :
      filter (λ h, query_matches (matches_query 1) h = true)
        (map_to_list (index repeated_hobby))
      = [(3, located "B" 0 0 ["b"; "c"]); (2, located "A" 0 0 ["a"])])
      by reflexivity.
    unfold repeated_hobby, fresh in Hhits. simpl index in Hhits.
    rewrite Hhits. unfold list_sort. simpl foldr.
    change (script_common ["a"; "a"; "a"; "b"; "c"] ["a"]) with 3.
    change (script_common ["a"; "a"; "a"; "b"; "c"] ["b"; "c"]) with 2.
    destruct (decide (- IZR 3 = - IZR 2)%R) as [H|_]; [lra|].
    rewrite bool_decide_true by lra. reflexivity. }
  assert (Hany : ∀ unit : float_unit,
            returned_ids (@Matches_2.get_matches unit 1 repeated_hobby)
            = Some [3; 2]
            ∨ returned_ids (@Matches_2.get_matches unit 1 repeated_hobby)
              = None).
  { intros unit. unfold returned_ids.
    destruct (@get_matches_2_run unit repeated_hobby 1
                (located "R" 0 0 ["a"; "a"; "a"; "b"; "c"])
                eq_refl eq_refl)
      as [(ms & Hms & ->)|(h & e & _ & _ & ->)]; [|by right].
    left. simpl fst. cbv beta iota.
    rewrite search_hits_unsorted in Hms.
    assert (Hhits :
      take (Z.to_nat 10000)
        (filter (λ h, query_matches (matches_query 1) h = true)
           (map_to_list (index repeated_hobby)))
      = [(3, located "B" 0 0 ["b"; "c"]); (2, located "A" 0 0 ["a"])])
      by reflexivity.
    rewrite Hhits in Hms.
    apply Forall2_cons_inv_l in Hms as (m3 & ms' & H3 & Hms & ->).
    apply Forall2_cons_inv_l in Hms as (m2 & ms2 & H2 & Hms & ->).
    apply Forall2_nil_inv_l in Hms as ->.
    apply score_2_Ok in H3 as (Hu3 & Hc3 & _).
    apply score_2_Ok in H2 as (Hu2 & Hc2 & _).
    assert (Hlt : common_hobbies m2 < common_hobbies m3).
    { rewrite Hc2, Hc3. vm_compute. done. }
    destruct (sort_two_entries m3 m2 Hlt) as [-> _].
    simpl. by rewrite Hu3, Hu2. }
  assert (H2 : returned_ids
                 (@Matches_2.get_matches exact_floats 1 repeated_hobby)
               = Some [3; 2]).
  { unfold returned_ids.
    rewrite (get_matches_2_exact_run repeated_hobby 1
               (located "R" 0 0 ["a"; "a"; "a"; "b"; "c"]))
      by reflexivity.
    reflexivity. }
  assert (Hne : ∀ unit : float_unit,
            (Matches.get_matches 1 repeated_hobby).1
            ≠ (@Matches_2.get_matches unit 1 repeated_hobby).1).
  { intros unit Heq. unfold returned_ids in H1.
    destruct (Hany unit) as [Hu|Hu]; unfold returned_ids in Hu;
      rewrite <- Heq, H1 in Hu; discriminate. }
  split; [done|]. split; [done|]. split; [apply Hne|].
  intros unit. split; [apply Hany|apply Hne].
Qed.

(** *** When the two formulations agree *)

Lemma insert_sorted_map {A B} (f : A → B) (lt1 : A → A → bool)
    (lt2 : B → B → bool) (x : A) (l : list A) :
  Forall (λ y, lt1 y x = lt2 (f y) (f x)) l →
  map f (insert_sorted lt1 x l) = insert_sorted lt2 (f x) (map f l).
Proof.
  induction 1 as [|y l Hy Hl IH]; simpl; [done|].
  rewrite <- Hy. destruct (lt1 y x); simpl; [|done]. by rewrite IH.
Qed.

Lemma list_sort_map {A B K1 K2} (f : A → B) (key1 : A → K1) (key2 : B → K2)
    (lt1 : K1 → K1 → bool) (lt2 : K2 → K2 → bool) (l : list A) :
  (∀ a b, a ∈ l → b ∈ l →
     lt1 (key1 a) (key1 b) = lt2 (key2 (f a)) (key2 (f b))) →
  map f (list_sort key1 lt1 l) = list_sort key2 lt2 (map f l).
Proof.
  induction l as [|x l IH]; intros Hlt; [done|].
  unfold list_sort in *. simpl.
  rewrite (insert_sorted_map f _ (λ a b, lt2 (key2 a) (key2 b))).
  - rewrite IH; [done|]. intros a b Ha Hb. apply Hlt; by right.
  - apply Forall_forall. intros y Hy. apply Hlt; [|by left].
    right.
    assert (Hp : foldr (insert_sorted (λ a b, lt1 (key1 a) (key1 b))) [] l
                 ≡ₚ l)
      by apply (list_sort_Permutation key1 lt1).
    by rewrite <- Hp.
Qed.

(** The comparison of the two sort values is the comparison of the
    client-side keys. *)
Lemma values_lt_tuple_lt (a1 a2 : Z) (d1 d2 : R) :
  values_lt [(- IZR a1)%R; d1] [(- IZR a2)%R; d2]
  = tuple_lt (- a1, d1) (- a2, d2).
Proof.
  unfold values_lt, tuple_lt. simpl.
  destruct (decide (- IZR a1 = - IZR a2)%R) as [He|He],
           (decide (- a1 = - a2)) as [He'|He'].
  - done.
  - exfalso. apply He'. f_equal. apply eq_IZR. lra.
  - exfalso. apply He. f_equal. f_equal. lia.
  - apply bool_decide_ext. split.
    + intros H. apply Ropp_lt_cancel in H. apply lt_IZR in H. lia.
    + intros H. apply Ropp_lt_contravar, IZR_lt. lia.
Qed.

(** On a store with at most 10000 candidates, a requester whose hobby
    list has no repetition, and candidates whose [location] is the point
    of their [x] and [y] (zero for a missing coordinate), the search-side
    route and the client-side route of Matches 2.py return the same
    sequence when the client does not round. *)
Lemma formulations_agree (s : es_state) (id : Z) (u : doc) :
  index s !! id = Some u → doc_status u = single →
  NoDup (default [] (doc_hobbies u)) →
  (∀ i d, index s !! i = Some d → doc_status d = single → i ≠ id →
     models.lat (doc_location d) = default 0%R (doc_y d)
     ∧ models.lon (doc_location d) = default 0%R (doc_x d)) →
  Z.of_nat (length (filter (λ h, query_matches (matches_query id) h = true)
                      (map_to_list (index s)))) ≤ 10000 →
  (Matches.get_matches id s).1
  = (@Matches_2.get_matches exact_floats id s).1.
Proof.
  intros Hid Hst Hnd Hloc Hlen.
  rewrite (get_matches_1_run s id u), (get_matches_2_exact_run s id u)
    by done.
  cbv zeta. simpl fst. f_equal.
  rewrite search_hits_unsorted. unfold search_hits.
  set (F := filter _ (map_to_list (index s))) in *.
  rewrite !take_ge
    by (rewrite ?(Permutation_length (list_sort_Permutation _ _ F)); lia).
  set (score := exact_score _ _).
  transitivity (map user (map score (list_sort
    (λ h : hit, map (λ c, sort_value c h)
       [_script_desc (default [] (doc_hobbies u));
        _geo_distance_asc (default 0%R (doc_y u)) (default 0%R (doc_x u))])
    values_lt F))).
  { by rewrite map_map. }
  f_equal. apply list_sort_map.
  intros [i1 d1] [i2 d2] H1 H2.
  apply matches_query_selects in H1 as (H1 & Hs1 & Hn1).
  apply matches_query_selects in H2 as (H2 & Hs2 & Hn2).
  simpl in *.
  destruct (Hloc i1 d1 H1 Hs1 Hn1) as [-> ->].
  destruct (Hloc i2 d2 H2 Hs2 Hn2) as [-> ->].
  rewrite !(script_common_NoDup _ _ Hnd). unfold sort_key. simpl.
  apply values_lt_tuple_lt.
Qed.

Example formulations_agree_on_match_ordering :
  (Matches.get_matches 1 match_ordering).1
  = (@Matches_2.get_matches exact_floats 1 match_ordering).1.
Proof.
  apply (formulations_agree match_ordering 1
           (located "R" 0 0 ["reading"; "hiking"])).
  - reflexivity.
  - reflexivity.
  - simpl. apply (bool_decide_unpack _). reflexivity.
  - intros i d Hd _ _. unfold match_ordering, fresh in Hd. simpl in Hd.
    apply lookup_insert_Some in Hd as [[_ <-]|[_ Hd]]; [done|].
    apply lookup_insert_Some in Hd as [[_ <-]|[_ Hd]]; [done|].
    by apply lookup_singleton_Some in Hd as [_ <-].
  - vm_compute. discriminate.
Qed.

(* ================================================================== *)
(** * Properties of the other routes, and more on the follow protocol *)

(** ** The follow protocol: outcomes, frame, invariants, round trips *)

(** The ways [add_follow] can end, by the state of the index. *)
Lemma add_follow_cases (s : es_state) (id follow_id : Z) :
  (index s !! id = None
   ∧ add_follow id follow_id s
     = (Raise (HTTPException 500 "404: User not found"),
        called (c_exists id) s))
  ∨ (is_Some (index s !! id) ∧ index s !! follow_id = None
     ∧ add_follow id follow_id s
       = (Raise (HTTPException 500 "404: Follow user not found"),
          called (c_exists follow_id) (called (c_exists id) s)))
  ∨ (is_Some (index s !! id) ∧ id = follow_id
     ∧ add_follow id follow_id s
       = (Raise (HTTPException 500 "400: Cannot follow self"),
          called (c_exists follow_id) (called (c_exists id) s)))
  ∨ (∃ d, index s !! id = Some d ∧ is_Some (index s !! follow_id)
       ∧ id ≠ follow_id ∧ follow_id ∈ doc_following d
       ∧ add_follow id follow_id s
         = (Ok (id, doc_following d),
            {| index := index s;
               calls := calls s ++ [c_exists id; c_exists follow_id;
                                    c_get id] |}))
  ∨ (∃ d, index s !! id = Some d ∧ is_Some (index s !! follow_id)
       ∧ id ≠ follow_id ∧ (follow_id ∉ doc_following d)
       ∧ add_follow id follow_id s
         = (Ok (id, doc_following d ++ [follow_id]),
            {| index :=
                 <[id := with_following (doc_following d ++ [follow_id]) d]>
                   (index s);
               calls :=
                 calls s ++ [c_exists id; c_exists follow_id; c_get id;
                             c_update id (doc_following d ++ [follow_id])]
            |})).
Proof.
  unfold add_follow, try_except.
  destruct (index s !! id) as [d|] eqn:Hid.
  - destruct (index s !! follow_id) as [fd|] eqn:Hf.
    + destruct (decide (id = follow_id)) as [Heq|Hne].
      * right. right. left. rewrite add_follow_body_self by done. done.
      * destruct (decide (follow_id ∈ doc_following d)) as [Hin|Hin].
        -- right. right. right. left. exists d.
           rewrite (add_follow_body_present s id follow_id d) by done. done.
        -- right. right. right. right. exists d.
           rewrite (add_follow_body_absent s id follow_id d) by done. done.
    + right. left. rewrite add_follow_body_missing_target by done. done.
  - left. rewrite add_follow_body_missing_user by done. done.
Qed.

Lemma remove_follow_body_missing_user (s : es_state) (id follow_id : Z) :
  index s !! id = None →
  remove_follow_body id follow_id s
  = (Raise (HTTPException 404 "User not found"), called (c_exists id) s).
Proof. intros Hid. unfold remove_follow_body. run. tests. Qed.

Lemma remove_follow_body_missing_target (s : es_state) (id follow_id : Z) :
  is_Some (index s !! id) → index s !! follow_id = None →
  remove_follow_body id follow_id s
  = (Raise (HTTPException 404 "Follow user not found"),
     called (c_exists follow_id) (called (c_exists id) s)).
Proof. intros Hid Hf. unfold remove_follow_body. run. tests. Qed.

(** The ways [remove_follow] can end. *)
Lemma remove_follow_cases (s : es_state) (id follow_id : Z) :
  (index s !! id = None
   ∧ remove_follow id follow_id s
     = (Raise (HTTPException 500 "404: User not found"),
        called (c_exists id) s))
  ∨ (is_Some (index s !! id) ∧ index s !! follow_id = None
     ∧ remove_follow id follow_id s
       = (Raise (HTTPException 500 "404: Follow user not found"),
          called (c_exists follow_id) (called (c_exists id) s)))
  ∨ (∃ d, index s !! id = Some d ∧ is_Some (index s !! follow_id)
       ∧ remove_follow id follow_id s
         = (Ok (id, filter (λ f, f ≠ follow_id) (doc_following d)),
            {| index :=
                 <[id := with_following
                           (filter (λ f, f ≠ follow_id) (doc_following d)) d]>
                   (index s);
               calls :=
                 calls s ++ [c_exists id; c_exists follow_id; c_get id;
                             c_update id
                               (filter (λ f, f ≠ follow_id) (doc_following d))]
            |})).
Proof.
  unfold remove_follow, try_except.
  destruct (index s !! id) as [d|] eqn:Hid.
  - destruct (index s !! follow_id) as [fd|] eqn:Hf.
    + right. right. exists d.
      rewrite (remove_follow_body_run s id follow_id d) by done. done.
    + right. left. rewrite remove_follow_body_missing_target by done. done.
  - left. rewrite remove_follow_body_missing_user by done. done.
Qed.

(** X1: outcomes of the follow routes.  [add_follow] succeeds exactly
    when both users exist and differ; [remove_follow] succeeds exactly
    when both users exist, the follower being the target included (it has
    no self test).  Every failure of either route reaches the caller as a
    500 and leaves the index as it was. *)
Theorem follow_outcomes (s : es_state) (id follow_id : Z) :
  match (add_follow id follow_id s).1 with
  | Ok _ =>
      is_Some (index s !! id) ∧ is_Some (index s !! follow_id)
      ∧ id ≠ follow_id
  | Raise e =>
      (index s !! id = None ∨ index s !! follow_id = None ∨ id = follow_id)
      ∧ (∃ detail, e = HTTPException 500 detail)
      ∧ index (add_follow id follow_id s).2 = index s
  end
  ∧ match (remove_follow id follow_id s).1 with
    | Ok _ => is_Some (index s !! id) ∧ is_Some (index s !! follow_id)
    | Raise e =>
        (index s !! id = None ∨ index s !! follow_id = None)
        ∧ (∃ detail, e = HTTPException 500 detail)
        ∧ index (remove_follow id follow_id s).2 = index s
    end.
Proof.
  split.
  - destruct (add_follow_cases s id follow_id)
      as [[H ->]|[(H1 & H2 & ->)|[(H1 & H2 & ->)
          |[(d & H1 & H2 & H3 & H4 & ->)|(d & H1 & H2 & H3 & H4 & ->)]]]];
      simpl; eauto 10.
  - destruct (remove_follow_cases s id follow_id)
      as [[H ->]|[(H1 & H2 & ->)|(d & H1 & H2 & ->)]]; simpl; eauto 10.
Qed.

(** X2: the frame of the follow routes.  Whatever the arguments and the
    outcome, [add_follow] and [remove_follow] leave every document other
    than the follower's as it was, and change no field but [following]:
    the index with the follower removed, and the index with every
    [following] list erased, are unchanged. *)
Theorem follow_frame (s : es_state) (id follow_id : Z) :
  delete id (index (add_follow id follow_id s).2) = delete id (index s)
  ∧ with_following [] <$> index (add_follow id follow_id s).2
    = with_following [] <$> index s
  ∧ delete id (index (remove_follow id follow_id s).2) = delete id (index s)
  ∧ with_following [] <$> index (remove_follow id follow_id s).2
    = with_following [] <$> index s.
Proof.
  assert (Hupd : ∀ d l, index s !! id = Some d →
            delete id (<[id := with_following l d]> (index s))
            = delete id (index s)
            ∧ with_following [] <$> <[id := with_following l d]> (index s)
              = with_following [] <$> index s).
  { intros d l Hd. split; [by rewrite delete_insert_eq|].
    rewrite fmap_insert. apply insert_id. by rewrite lookup_fmap, Hd. }
  destruct (add_follow_cases s id follow_id)
    as [[H ->]|[(H1 & H2 & ->)|[(H1 & H2 & ->)
        |[(d & H1 & H2 & H3 & H4 & ->)|(d & H1 & H2 & H3 & H4 & ->)]]]];
    destruct (remove_follow_cases s id follow_id)
      as [[H' ->]|[(H1' & H2' & ->)|(d' & H1' & H2' & ->)]];
    simpl; repeat split; try done;
    try (by apply (Hupd d)); by apply (Hupd d').
Qed.

Lemma well_formed_update (idx : gmap Z doc) (id : Z) (d : doc) (l : list Z) :
  idx !! id = Some d → NoDup l → id ∉ l →
  Forall (λ j, is_Some (idx !! j)) l →
  well_formed idx → well_formed (<[id := with_following l d]> idx).
Proof.
  intros Hd Hnd Hself Hex Hwf.
  assert (Hsome : ∀ j, is_Some (idx !! j) →
            is_Some (<[id := with_following l d]> idx !! j)).
  { intros j Hj. destruct (decide (id = j)) as [->|Hne].
    - rewrite lookup_insert_eq. eauto.
    - by rewrite lookup_insert_ne. }
  apply map_Forall_insert_2.
  - simpl. split; [done|]. split; [done|].
    eapply Forall_impl; [exact Hex|]. exact Hsome.
  - intros j dj Hj. destruct (Hwf j dj Hj) as (H1 & H2 & H3).
    split; [done|]. split; [done|].
    eapply Forall_impl; [exact H3|]. exact Hsome.
Qed.

(** X3: the follow routes keep the follow graph well formed.  If no
    stored list of follows repeats an id, names its own user or names a
    missing user, the same holds after [add_follow] and after
    [remove_follow], whatever their arguments and outcome. *)
Theorem follow_keeps_well_formed (s : es_state) (id follow_id : Z) :
  well_formed (index s) →
  well_formed (index (add_follow id follow_id s).2)
  ∧ well_formed (index (remove_follow id follow_id s).2).
Proof.
  intros Hwf. split.
  - destruct (add_follow_cases s id follow_id)
      as [[H ->]|[(H1 & H2 & ->)|[(H1 & H2 & ->)
          |[(d & H1 & H2 & H3 & H4 & ->)|(d & H1 & H2 & H3 & H4 & ->)]]]];
      simpl; try done.
    destruct (Hwf id d H1) as (Hnd & Hself & Hex).
    apply well_formed_update; try done.
    + apply NoDup_app. split; [done|]. split; [|apply NoDup_singleton].
      intros x Hx ->%list_elem_of_singleton. done.
    + intros [?|Hx%list_elem_of_singleton]%elem_of_app; [done|].
      by apply H3.
    + apply Forall_app. split; [done|]. by repeat constructor.
  - destruct (remove_follow_cases s id follow_id)
      as [[H ->]|[(H1 & H2 & ->)|(d & H1 & H2 & ->)]]; simpl; try done.
    destruct (Hwf id d H1) as (Hnd & Hself & Hex).
    apply well_formed_update; try done.
    + by apply NoDup_filter.
    + intros [_ ?]%list_elem_of_filter. done.
    + apply Forall_forall. intros j [_ Hj]%list_elem_of_filter.
      by apply (proj1 (Forall_forall _ _) Hex).
Qed.

Lemma follow_keeps_well_formed_witness :
  well_formed (index triangle)
  ∧ well_formed (index (add_follow 1 3 triangle).2)
  ∧ well_formed (index (remove_follow 2 3 triangle).2).
Proof.
  assert (H : well_formed (index triangle)).
  { unfold well_formed, triangle, fresh. simpl.
    repeat (apply map_Forall_insert_2; [simpl|]);
      [..|apply map_Forall_empty].
    all: split; [apply (bool_decide_unpack _); reflexivity|].
    all: split; [apply (bool_decide_unpack _); reflexivity|].
    all: repeat constructor; by eexists. }
  split; [exact H|].
  split.
  - exact (proj1 (follow_keeps_well_formed triangle 1 3 H)).
  - exact (proj2 (follow_keeps_well_formed triangle 2 3 H)).
Defined.

Lemma filter_ne_snoc (x : Z) (l : list Z) :
  x ∉ l → filter (λ f, f ≠ x) (l ++ [x]) = l.
Proof.
  intros Hx. rewrite filter_app, filter_ne_absent by done.
  rewrite filter_cons_False by (intros ?; done). by rewrite app_nil_r.
Qed.

(** X4: unfollowing undoes a follow.  For an existing follower and an
    existing, different target that is not yet followed, [add_follow]
    followed by [remove_follow] returns the original list and leaves the
    index exactly as it was before the two calls. *)
Theorem add_then_remove_restores (s : es_state) (id follow_id : Z) (d : doc) :
  index s !! id = Some d → is_Some (index s !! follow_id) →
  id ≠ follow_id → follow_id ∉ doc_following d →
  ∃ s1 s2,
    add_follow id follow_id s = (Ok (id, doc_following d ++ [follow_id]), s1)
    ∧ remove_follow id follow_id s1 = (Ok (id, doc_following d), s2)
    ∧ index s2 = index s.
Proof.
  intros Hid Hf Hne Hin.
  destruct (add_follow_cases s id follow_id)
    as [[H _]|[(_ & H & _)|[(_ & H & _)
        |[(d' & H1 & _ & _ & H4 & _)|(d' & H1 & _ & _ & _ & Hrun)]]]];
    try congruence.
  { rewrite H in Hf. by destruct Hf. }
  assert (d' = d) as -> by congruence.
  eexists _, _. split; [exact Hrun|].
  destruct (remove_follow_cases
              {| index :=
                   <[id := with_following (doc_following d ++ [follow_id]) d]>
                     (index s);
                 calls :=
                   calls s ++ [c_exists id; c_exists follow_id; c_get id;
                               c_update id (doc_following d ++ [follow_id])]
              |} id follow_id)
    as [[H _]|[(_ & H & _)|(d1 & H1' & _ & Hrun')]]; simpl in *.
  - by rewrite lookup_insert_eq in H.
  - rewrite lookup_insert_ne in H by done. rewrite H in Hf. by destruct Hf.
  - rewrite lookup_insert_eq in H1'. injection H1' as <-.
    simpl in Hrun'. rewrite filter_ne_snoc in Hrun' by done.
    split; [exact Hrun'|]. simpl.
    rewrite insert_insert_eq.
    replace (with_following (doc_following d)
               (with_following (doc_following d ++ [follow_id]) d))
      with d by (by destruct d).
    by apply insert_id.
Qed.

Lemma add_then_remove_restores_witness :
  index two_users !! 1 = Some (profile "U" single [])
  ∧ is_Some (index two_users !! 2)
  ∧ 1 ≠ 2
  ∧ (2 ∉ doc_following (profile "U" single []))
  ∧ ∃ s1 s2,
      add_follow 1 2 two_users = (Ok (1, [] ++ [2]), s1)
      ∧ remove_follow 1 2 s1 = (Ok (1, []), s2)
      ∧ index s2 = index two_users.
Proof.
  assert (H1 : index two_users !! 1 = Some (profile "U" single []))
    by reflexivity.
  assert (H2 : is_Some (index two_users !! 2)) by (eexists; reflexivity).
  assert (H3 : 1 ≠ 2) by lia.
  assert (H4 : 2 ∉ doc_following (profile "U" single []))
    by (simpl; apply not_elem_of_nil).
  repeat split; try assumption.
  exact (add_then_remove_restores two_users 1 2 _ H1 H2 H3 H4).
Defined.

(** X5: [remove_follow] is idempotent.  For an existing follower and an
    existing target (possibly the follower itself), a second call returns
    the list the first call returned and leaves the index as the first
    call left it. *)
Theorem remove_follow_idempotent (s : es_state) (id follow_id : Z) :
  is_Some (index s !! id) → is_Some (index s !! follow_id) →
  ∃ l s1 s2,
    remove_follow id follow_id s = (Ok (id, l), s1)
    ∧ remove_follow id follow_id s1 = (Ok (id, l), s2)
    ∧ index s2 = index s1.
Proof.
  intros Hid Hf.
  destruct (remove_follow_cases s id follow_id)
    as [[H _]|[(_ & H & _)|(d & H1 & _ & Hrun)]].
  { rewrite H in Hid. by destruct Hid. }
  { rewrite H in Hf. by destruct Hf. }
  eexists _, _, _. split; [exact Hrun|].
  match goal with
  | |- remove_follow _ _ ?s1 = _ ∧ _ =>
      destruct (remove_follow_cases s1 id follow_id)
        as [[H _]|[(_ & H & _)|(d1 & H1' & _ & Hrun')]]; simpl in *
  end.
  - by rewrite lookup_insert_eq in H.
  - destruct (decide (id = follow_id)) as [<-|Hne].
    + by rewrite lookup_insert_eq in H.
    + rewrite lookup_insert_ne in H by done. rewrite H in Hf. by destruct Hf.
  - rewrite lookup_insert_eq in H1'. injection H1' as <-. simpl in Hrun'.
    assert (Hff : filter (λ f, f ≠ follow_id)
                    (filter (λ f, f ≠ follow_id) (doc_following d))
                  = filter (λ f, f ≠ follow_id) (doc_following d)).
    { apply filter_ne_absent. by intros [? _]%list_elem_of_filter. }
    rewrite Hff in Hrun'. split; [exact Hrun'|]. simpl.
    by rewrite insert_insert_eq.
Qed.

Lemma remove_follow_idempotent_witness :
  is_Some (index follows !! 1)
  ∧ is_Some (index follows !! 2)
  ∧ ∃ l s1 s2,
      remove_follow 1 2 follows = (Ok (1, l), s1)
      ∧ remove_follow 1 2 s1 = (Ok (1, l), s2)
      ∧ index s2 = index s1.
Proof.
  assert (H1 : is_Some (index follows !! 1)) by (eexists; reflexivity).
  assert (H2 : is_Some (index follows !! 2)) by (eexists; reflexivity).
  split; [exact H1|]. split; [exact H2|].
  exact (remove_follow_idempotent follows 1 2 H1 H2).
Defined.

(** ** Reading a user and the users it follows *)

Lemma get_user_run (s : es_state) (id : Z) :
  get_user id s
  = match index s !! id with
    | Some d => (Ok (User_at id d), called (c_get id) s)
    | None =>
        (Raise (HTTPException 404 "User not found"), called (c_get id) s)
    end.
Proof.
  unfold get_user, get_user_body. run. by destruct (index s !! id).
Qed.

(** X6: a follow or unfollow is read back.  After a successful
    [add_follow] or [remove_follow] of follower [id], [get_user id]
    succeeds and shows as [following] exactly the list the route
    returned, and every other field as [get_user id] showed it before. *)
Theorem get_user_after_follow (op : Z → Z → M (Z * list Z))
    (s : es_state) (id follow_id : Z) (r : Z * list Z) :
  op = add_follow ∨ op = remove_follow →
  (op id follow_id s).1 = Ok r →
  ∃ u0 u,
    (get_user id s).1 = Ok u0
    ∧ (get_user id (op id follow_id s).2).1 = Ok u
    ∧ r.1 = id ∧ models.following u = r.2
    ∧ models.id u = models.id u0 ∧ models.name u = models.name u0
    ∧ models.gender u = models.gender u0
    ∧ models.status u = models.status u0
    ∧ models.location u = models.location u0.
Proof.
  intros [-> | ->].
  - destruct (add_follow_cases s id follow_id)
      as [[H ->]|[(H1 & H2 & ->)|[(H1 & H2 & ->)
          |[(d & H1 & H2 & H3 & H4 & ->)|(d & H1 & H2 & H3 & H4 & ->)]]]];
      simpl; try done; intros [= <-];
      rewrite !get_user_run; simpl; rewrite H1; simpl.
    + eauto 12.
    + rewrite lookup_insert_eq. simpl. eexists _, _. eauto 12.
  - destruct (remove_follow_cases s id follow_id)
      as [[H ->]|[(H1 & H2 & ->)|(d & H1 & H2 & ->)]];
      simpl; try done; intros [= <-];
      rewrite !get_user_run; simpl; rewrite H1; simpl.
    rewrite lookup_insert_eq. simpl. eexists _, _. eauto 12.
Qed.

Lemma get_user_after_follow_witness :
  (add_follow 1 2 two_users).1 = Ok (1, [2])
  ∧ ∃ u0 u,
      (get_user 1 two_users).1 = Ok u0
      ∧ (get_user 1 (add_follow 1 2 two_users).2).1 = Ok u
      ∧ (1, [2]).1 = 1 ∧ models.following u = (1, [2]).2
      ∧ models.id u = models.id u0 ∧ models.name u = models.name u0
      ∧ models.gender u = models.gender u0
      ∧ models.status u = models.status u0
      ∧ models.location u = models.location u0.
Proof.
  assert (H : (add_follow 1 2 two_users).1 = Ok (1, [2])) by reflexivity.
  split; [exact H|].
  exact (get_user_after_follow add_follow two_users 1 2 (1, [2])
           (or_introl eq_refl) H).
Defined.

Lemma get_following_run (s : es_state) (id : Z) (u : doc) :
  index s !! id = Some u →
  ∃ s', get_following id s
        = (Ok (omap (λ fid, User_at fid <$> index s !! fid) (doc_following u)),
           s')
    ∧ index s' = index s
    ∧ writes (calls s') = writes (calls s).
Proof.
  intros Hid.
  assert (Hbody : ∃ s', get_following_body id s
            = (Ok (omap (λ fid, User_at fid <$> index s !! fid)
                     (doc_following u)), s')
            ∧ index s' = index s
            ∧ writes (calls s') = writes (calls s)).
  { unfold get_following_body.
    rewrite (exists_then_get _ _ s id u) by done. cbv zeta.
    edestruct (for_each_reads (retrieve_step (λ i d, Some (User_at i d))))
      as (s' & Hrun & Hidx & Hw); last first.
    { exists s'. split.
      - rewrite Hrun, retrieve_step_fold. simpl. done.
      - simpl in *. split; [done|].
        rewrite Hw, <- app_assoc, writes_app. unfold writes at 2. simpl. lia. }
    intros acc x s0. unfold retrieve_step. run.
    destruct (index s0 !! x) as [d|] eqn:Hx; simpl.
    - rewrite ?Hx. simpl. eexists. split; [done|]. simpl. split; [done|].
      rewrite <- app_assoc, writes_app. unfold writes at 2. simpl. lia.
    - eexists. split; [done|]. simpl. split; [done|].
      rewrite writes_app. unfold writes at 2. simpl. lia. }
  destruct Hbody as (s' & Hrun & Hrest). exists s'.
  split; [by apply try_except_ok|done].
Qed.

Lemma omap_ids (idx : gmap Z doc) (l : list Z) :
  map models.id (omap (λ fid, User_at fid <$> idx !! fid) l)
  = map Some (filter (λ fid, is_Some (idx !! fid)) l).
Proof.
  induction l as [|fid l IH]; [done|]. csimpl.
  destruct (idx !! fid) as [d|] eqn:Hd; simpl.
  - rewrite filter_cons_True by (by rewrite Hd). csimpl. by rewrite IH.
  - rewrite filter_cons_False by (rewrite Hd; by intros []). done.
Qed.

(** X7: [get_following].  For an existing user the route succeeds,
    changes nothing, and returns the profiles of the followed ids that
    exist, in the order of the stored list: an id that is not in the index
    is skipped, and each profile is the stored document of its id, its own
    [following] included. *)
Theorem get_following_spec (s : es_state) (id : Z) (u : doc) :
  index s !! id = Some u →
  ∃ us s',
    get_following id s = (Ok us, s')
    ∧ index s' = index s
    ∧ map models.id us
      = map Some (filter (λ fid, is_Some (index s !! fid)) (doc_following u))
    ∧ Forall (λ p, ∃ fid d, models.id p = Some fid
                            ∧ index s !! fid = Some d ∧ p = User_at fid d)
        us.
Proof.
  intros Hid. destruct (get_following_run s id u Hid) as (s' & Hrun & Hidx & _).
  eexists _, s'. split; [exact Hrun|]. split; [done|].
  split; [apply omap_ids|].
  apply Forall_forall. intros p (fid & _ & Hp)%list_elem_of_omap.
  destruct (index s !! fid) as [d|] eqn:Hd; [|done].
  injection Hp as <-. by exists fid, d.
Qed.

Lemma get_following_spec_witness :
  index triangle !! 2 = Some (profile "A" single [3; 1])
  ∧ ∃ us s',
      get_following 2 triangle = (Ok us, s')
      ∧ index s' = index triangle
      ∧ map models.id us
        = map Some (filter (λ fid, is_Some (index triangle !! fid))
                      (doc_following (profile "A" single [3; 1])))
      ∧ Forall (λ p, ∃ fid d, models.id p = Some fid
                              ∧ index triangle !! fid = Some d
                              ∧ p = User_at fid d)
          us.
Proof.
  assert (H : index triangle !! 2 = Some (profile "A" single [3; 1]))
    by reflexivity.
  split; [exact H|].
  exact (get_following_spec triangle 2 _ H).
Defined.

(** X8: a new follow shows up last.  After [add_follow] of a target that
    was not yet followed, [get_following] returns the ids it returned
    before, followed by the target. *)
Theorem follow_then_following (s : es_state) (id follow_id : Z) (d : doc) :
  index s !! id = Some d → is_Some (index s !! follow_id) →
  id ≠ follow_id → follow_id ∉ doc_following d →
  ∃ us us',
    (get_following id s).1 = Ok us
    ∧ (get_following id (add_follow id follow_id s).2).1 = Ok us'
    ∧ map models.id us' = map models.id us ++ [Some follow_id].
Proof.
  intros Hid Hf Hne Hin.
  destruct (get_following_run s id d Hid) as (s' & Hrun & _).
  destruct (add_follow_cases s id follow_id)
    as [[H _]|[(_ & H & _)|[(_ & H & _)
        |[(d' & H1 & _ & _ & H4 & _)|(d' & H1 & _ & _ & _ & Hadd)]]]];
    try congruence.
  { rewrite H in Hf. by destruct Hf. }
  assert (d' = d) as -> by congruence.
  rewrite Hadd, Hrun. simpl.
  edestruct (get_following_run
               {| index :=
                    <[id := with_following (doc_following d ++ [follow_id]) d]>
                      (index s);
                  calls :=
                    calls s ++ [c_exists id; c_exists follow_id; c_get id;
                                c_update id (doc_following d ++ [follow_id])]
               |} id) as (s1 & Hrun1 & _).
  { simpl. apply lookup_insert_eq. }
  rewrite Hrun1. simpl. eexists _, _. split; [done|]. split; [done|].
  rewrite !omap_ids.
  assert (Hsome : ∀ j,
            is_Some (<[id := with_following (doc_following d ++ [follow_id]) d]>
                       (index s) !! j)
            ↔ is_Some (index s !! j)).
  { intros j. destruct (decide (id = j)) as [<-|Hj].
    - rewrite lookup_insert_eq, Hid. split; eauto.
    - by rewrite lookup_insert_ne. }
  rewrite filter_app, map_app. f_equal.
  - f_equal. apply list_filter_iff. exact Hsome.
  - rewrite filter_cons_True by (by apply Hsome). done.
Qed.

Lemma follow_then_following_witness :
  index follows !! 2 = Some (profile "A" single [])
  ∧ is_Some (index follows !! 1)
  ∧ 2 ≠ 1
  ∧ (1 ∉ doc_following (profile "A" single []))
  ∧ ∃ us us',
      (get_following 2 follows).1 = Ok us
      ∧ (get_following 2 (add_follow 2 1 follows).2).1 = Ok us'
      ∧ map models.id us' = map models.id us ++ [Some 1].
Proof.
  assert (H1 : index follows !! 2 = Some (profile "A" single []))
    by reflexivity.
  assert (H2 : is_Some (index follows !! 1)) by (eexists; reflexivity).
  assert (H3 : 2 ≠ 1) by lia.
  assert (H4 : 1 ∉ doc_following (profile "A" single []))
    by (simpl; apply not_elem_of_nil).
  repeat split; try assumption.
  exact (follow_then_following follows 2 1 _ H1 H2 H3 H4).
Defined.

(** ** A user that is not in the index *)

Section missing_user.

Context `{engine}.
Context (s : es_state) (id : Z).
Hypothesis Hid : index s !! id = None.

Lemma guarded_missing {A} (k : M A) (h : exn → exn) :
  try_except
    (b <- es_exists id ;;
     if negb b then raise (HTTPException 404 "User not found") else k) h s
  = (Raise (h (HTTPException 404 "User not found")), called (c_exists id) s).
Proof. run. tests. Qed.

Lemma get_user_missing :
  get_user id s
  = (Raise (HTTPException 404 "User not found"), called (c_get id) s)
  ∧ main_users.get_user id s
    = (Raise (HTTPException 404 "User not found"), called (c_get id) s).
Proof.
  unfold get_user, get_user_body, main_users.get_user,
    main_users.get_user_body.
  split; run; tests.
Qed.

End missing_user.

(** X9: a missing user.  When [id] is not in the index, only the two
    [get_user] routes answer 404 "User not found", from the client's
    [NotFoundError].  Every route that tests [es.exists] first raises its
    404 inside the [try], where [except Exception] turns it into a 500:
    the delete, following, followers and suggestion routes answer
    500 "404: User not found", and the match routes
    500 "Failed to retrieve matches: 404: User not found".  No route
    changes the index. *)
Theorem missing_user_answers `{engine} `{float_unit} (s : es_state)
    (id : Z) :
  index s !! id = None →
  let not_found := HTTPException 404 "User not found" in
  let wrapped := HTTPException 500 "404: User not found" in
  let matches_wrapped :=
    HTTPException 500 "Failed to retrieve matches: 404: User not found" in
  ((get_user id s).1 = Raise not_found
   ∧ (main_users.get_user id s).1 = Raise not_found)
  ∧ ((delete_user id s).1 = Raise wrapped
     ∧ (main_users.delete_user id s).1 = Raise wrapped
     ∧ (get_following id s).1 = Raise wrapped
     ∧ (get_followers id s).1 = Raise wrapped
     ∧ (suggestions.get_user_suggestions id s).1 = Raise wrapped
     ∧ (main.get_user_suggestions id s).1 = Raise wrapped
     ∧ (Suggest_2.get_user_suggestions id s).1 = Raise wrapped)
  ∧ ((Matches.get_matches id s).1 = Raise matches_wrapped
     ∧ (Matches_2.get_matches id s).1 = Raise matches_wrapped
     ∧ (Matches_3.get_matches id s).1 = Raise matches_wrapped)
  ∧ Forall (λ s', index s' = index s)
      [ (get_user id s).2; (main_users.get_user id s).2;
        (delete_user id s).2; (main_users.delete_user id s).2;
        (get_following id s).2; (get_followers id s).2;
        (suggestions.get_user_suggestions id s).2;
        (main.get_user_suggestions id s).2;
        (Suggest_2.get_user_suggestions id s).2;
        (Matches.get_matches id s).2; (Matches_2.get_matches id s).2;
        (Matches_3.get_matches id s).2 ].
Proof.
  intros Hid. cbv zeta.
  destruct (get_user_missing s id Hid) as [Hg Hg'].
  unfold delete_user, delete_user_body, main_users.delete_user,
    main_users.delete_user_body, get_following, get_following_body,
    get_followers, get_followers_body, suggestions.get_user_suggestions,
    suggestions.get_user_suggestions_body, main.get_user_suggestions,
    main.get_user_suggestions_body, Suggest_2.get_user_suggestions,
    Suggest_2.get_user_suggestions_body, Matches.get_matches,
    Matches.get_matches_body, Matches_2.get_matches,
    Matches_2.get_matches_body, Matches_3.get_matches,
    Matches_3.get_matches_body.
  rewrite Hg, Hg', !(guarded_missing s id Hid). simpl.
  repeat split. repeat constructor.
Qed.

Lemma missing_user_answers_witness :
  index two_users !! 7 = None
  ∧ (get_user 7 two_users).1 = Raise (HTTPException 404 "User not found")
  ∧ (@get_followers example_engine 7 two_users).1
    = Raise (HTTPException 500 "404: User not found")
  ∧ (@Matches_2.get_matches exact_floats 7 two_users).1
    = Raise (HTTPException 500
               "Failed to retrieve matches: 404: User not found").
Proof.
  assert (H : index two_users !! 7 = None) by reflexivity.
  split; [exact H|].
  pose proof (@missing_user_answers example_engine exact_floats
                two_users 7 H) as HX.
  cbv zeta in HX.
  destruct HX as ((Hg & _) & (_ & _ & _ & Hf & _) & (_ & Hm & _) & _).
  split; [exact Hg|]. split; [exact Hf|exact Hm].
Defined.

(** ** Deleting *)

Lemma delete_user_run (s : es_state) (id : Z) :
  is_Some (index s !! id) →
  delete_user id s
  = (Ok tt, {| index := delete id (index s);
               calls := calls s ++ [c_exists id; c_delete id] |})
  ∧ main_users.delete_user id s = delete_user id s.
Proof.
  intros [d Hid]. split; [|done].
  unfold delete_user, delete_user_body, es_delete. run. tests.
Qed.

(** X10: [delete_user].  For an existing user the route of 7.py and the
    route of main.py succeed and remove the document of [id] and nothing
    else: every other document is kept as it is, also one that follows
    [id].  Afterwards [get_user] answers 404, and a second delete answers
    500 "404: User not found". *)
Theorem delete_user_spec (s : es_state) (id : Z) :
  is_Some (index s !! id) →
  ∃ s',
    delete_user id s = (Ok tt, s')
    ∧ main_users.delete_user id s = (Ok tt, s')
    ∧ index s' = delete id (index s)
    ∧ (∀ j, j ≠ id → index s' !! j = index s !! j)
    ∧ (get_user id s').1 = Raise (HTTPException 404 "User not found")
    ∧ (delete_user id s').1
      = Raise (HTTPException 500 "404: User not found").
Proof.
  intros Hid. destruct (delete_user_run s id Hid) as [Hrun Hmain].
  eexists. split; [exact Hrun|]. split; [by rewrite Hmain|].
  split; [done|]. simpl. split.
  - intros j Hj. by apply lookup_delete_ne.
  - set (s' := {| index := delete id (index s);
                  calls := calls s ++ [c_exists id; c_delete id] |}).
    assert (Hd : index s' !! id = None) by apply lookup_delete_eq.
    split.
    + destruct (get_user_missing s' id Hd) as [-> _]. done.
    + unfold delete_user, delete_user_body.
      by rewrite (guarded_missing s' id Hd).
Qed.

Lemma delete_user_spec_witness :
  is_Some (index follows !! 2)
  ∧ ∃ s',
      delete_user 2 follows = (Ok tt, s')
      ∧ main_users.delete_user 2 follows = (Ok tt, s')
      ∧ index s' = delete 2 (index follows)
      ∧ (∀ j, j ≠ 2 → index s' !! j = index follows !! j)
      ∧ (get_user 2 s').1 = Raise (HTTPException 404 "User not found")
      ∧ (delete_user 2 s').1
        = Raise (HTTPException 500 "404: User not found").
Proof.
  assert (H : is_Some (index follows !! 2)) by (eexists; reflexivity).
  split; [exact H|].
  exact (delete_user_spec follows 2 H).
Defined.

(** X11: deleting does not cascade.  When [j] follows [id] and [id] is
    deleted, the stored list of [j] still names [id], so the index is no
    longer well formed; [get_following j] skips the dangling id and
    returns the other users it returned before, in the same order. *)
Theorem delete_user_leaves_follows (s : es_state) (id j : Z) (dj : doc) :
  is_Some (index s !! id) → index s !! j = Some dj → j ≠ id →
  id ∈ doc_following dj →
  ∃ us us',
    index (delete_user id s).2 !! j = Some dj
    ∧ ¬ well_formed (index (delete_user id s).2)
    ∧ (get_following j s).1 = Ok us
    ∧ (get_following j (delete_user id s).2).1 = Ok us'
    ∧ map models.id us'
      = filter (λ i, i ≠ Some id) (map models.id us).
Proof.
  intros Hid Hj Hne Hin.
  destruct (delete_user_run s id Hid) as [-> _]. simpl.
  assert (Hj' : delete id (index s) !! j = Some dj)
    by (by rewrite lookup_delete_ne).
  destruct (get_following_run s j dj Hj) as (s1 & -> & _).
  edestruct (get_following_run
               {| index := delete id (index s);
                  calls := calls s ++ [c_exists id; c_delete id] |} j dj Hj')
    as (s2 & -> & _).
  simpl. eexists _, _. split; [done|]. split; [|split; [done|]].
  - intros Hwf. destruct (Hwf j dj Hj') as (_ & _ & Hall).
    rewrite Forall_forall in Hall. specialize (Hall id Hin).
    rewrite lookup_delete_eq in Hall. by destruct Hall.
  - split; [done|]. rewrite !omap_ids.
    generalize (doc_following dj). clear. intros l.
    induction l as [|x l IH]; [done|].
    destruct (decide (x = id)) as [->|Hx].
    + rewrite (filter_cons_False _ id)
        by (rewrite lookup_delete_eq; by intros []).
      destruct (index s !! id) eqn:Hd.
      * rewrite (filter_cons_True _ id l) by (by rewrite Hd). csimpl.
        rewrite filter_cons_False by (by intros []). done.
      * rewrite (filter_cons_False _ id l) by (rewrite Hd; by intros []).
        done.
    + destruct (index s !! x) eqn:Hd.
      * rewrite !filter_cons_True
          by (rewrite ?lookup_delete_ne by done; by rewrite Hd).
        csimpl. rewrite filter_cons_True by (by intros [= ->]).
        by rewrite IH.
      * rewrite !filter_cons_False
          by (rewrite ?lookup_delete_ne by done; rewrite Hd; by intros []).
        done.
Qed.

Lemma delete_user_leaves_follows_witness :
  is_Some (index follows !! 2)
  ∧ index follows !! 1 = Some (profile "U" single [2])
  ∧ 1 ≠ 2
  ∧ 2 ∈ doc_following (profile "U" single [2])
  ∧ ∃ us us',
      index (delete_user 2 follows).2 !! 1 = Some (profile "U" single [2])
      ∧ ¬ well_formed (index (delete_user 2 follows).2)
      ∧ (get_following 1 follows).1 = Ok us
      ∧ (get_following 1 (delete_user 2 follows).2).1 = Ok us'
      ∧ map models.id us' = filter (λ i, i ≠ Some 2) (map models.id us).
Proof.
  assert (H1 : is_Some (index follows !! 2)) by (eexists; reflexivity).
  assert (H2 : index follows !! 1 = Some (profile "U" single [2]))
    by reflexivity.
  assert (H3 : 1 ≠ 2) by lia.
  assert (H4 : 2 ∈ doc_following (profile "U" single [2]))
    by (simpl; apply list_elem_of_singleton; reflexivity).
  repeat split; try assumption.
  exact (delete_user_leaves_follows follows 2 1 _ H1 H2 H3 H4).
Defined.

Section listing.

Context `{engine}.

Lemma get_all_users_run (name : option string) (gender : option Gender)
    (status : option Status) (following : option Z) (lon lat : option R)
    (radius : R) (s : es_state) :
  (is_Some lon ↔ is_Some lat) →
  get_all_users name gender status following lon lat radius s
  = (Ok (map (λ hit : hit, User_at hit.1 hit.2)
           (take (Z.to_nat 10000)
              (filter
                 (λ h, forallb (λ c, clause_holds c h)
                         (get_all_filter name gender status following
                            lon lat radius) = true)
                 (map_to_list (index s))))),
     called
       (c_search_body
          match get_all_filter name gender status following lon lat radius
          with
          | [] => dsl.match_all
          | c :: cs => dsl.bool_filter (c :: cs)
          end 10000)
       s).
Proof.
  intros Hll. unfold get_all_users.
  rewrite !bool_decide_false; simpl.
  - unfold try_except, bind, es_search_body, ret.
    by destruct (get_all_filter _ _ _ _ _ _ _).
  - intros [-> Hlat]. apply Hll in Hlat. by destruct Hlat.
  - intros [Hlon ->]. apply Hll in Hlon. by destruct Hlon.
Qed.

(** X12: [delete_all_users] succeeds and empties the index, whatever it
    held; afterwards a listing with any filters returns the empty list
    and [get_user] answers 404 for every id. *)
Theorem delete_all_users_spec (s : es_state) :
  ∃ s',
    delete_all_users s = (Ok tt, s')
    ∧ index s' = ∅
    ∧ (∀ name gender status following lon lat radius,
         (is_Some lon ↔ is_Some lat) →
         (get_all_users name gender status following lon lat radius s').1
         = Ok [])
    ∧ (∀ id, (get_user id s').1
             = Raise (HTTPException 404 "User not found")).
Proof.
  eexists. split; [reflexivity|]. split; [done|]. split.
  - intros. rewrite get_all_users_run by done. simpl.
    by rewrite map_to_list_empty.
  - intros id.
    set (s' := {| index := ∅; calls := calls s ++ [c_delete_by_query] |}).
    assert (Hd : index s' !! id = None) by apply lookup_empty.
    destruct (get_user_missing s' id Hd) as [-> _]. done.
Qed.

(** X13: the location test of [get_all_users].  The route fails exactly
    when one of [lon] and [lat] is given without the other.  The failure
    is raised before the [try], so it is answered as 400, not as 500, and
    before the search: the index and the trace are as they were.  In
    every other case the route succeeds, the index is as it was, and the
    trace gains one search of size 10000 and nothing else. *)
Theorem get_all_users_location_check (name : option string)
    (gender : option Gender) (status : option Status) (following : option Z)
    (lon lat : option R) (radius : R) (s : es_state) :
  match get_all_users name gender status following lon lat radius s with
  | (Ok _, s') =>
      (is_Some lon ↔ is_Some lat) ∧ index s' = index s
      ∧ ∃ q, calls s' = calls s ++ [c_search_body q 10000]
  | (Raise e, s') =>
      ¬ (is_Some lon ↔ is_Some lat) ∧ s' = s
      ∧ e = HTTPException 400
              "Both lon and lat must be provided for location filtering"
  end.
Proof.
  destruct lon as [lon|], lat as [lat|].
  - rewrite get_all_users_run by done. simpl.
    split; [done|]. split; [done|]. eauto.
  - unfold get_all_users. rewrite bool_decide_true by eauto. simpl.
    unfold raise. split; [|done]. intros [Hl _].
    by destruct Hl; [eauto|].
  - unfold get_all_users.
    rewrite bool_decide_false by (by intros [[] _]).
    rewrite bool_decide_true by eauto. simpl.
    unfold raise. split; [|done]. intros [_ Hl].
    by destruct Hl; [eauto|].
  - rewrite get_all_users_run by done. simpl.
    split; [done|]. split; [done|]. eauto.
Qed.

End listing.

(** ** Listing and followers *)

Lemma take_all (idx : gmap Z doc) (P : hit → Prop)
    `{!∀ h, Decision (P h)} :
  Z.of_nat (size idx) ≤ 10000 →
  take (Z.to_nat 10000) (filter P (map_to_list idx))
  = filter P (map_to_list idx).
Proof.
  intros Hsz. apply take_ge.
  etransitivity; [apply length_filter|].
  rewrite length_map_to_list. lia.
Qed.

Lemma listed_ids (l : list hit) :
  map models.id (map (λ hit : hit, User_at hit.1 hit.2) l)
  = map (λ h : hit, Some h.1) l.
Proof. rewrite map_map. done. Qed.

Lemma listed_NoDup (idx : gmap Z doc) (P : hit → Prop)
    `{!∀ h, Decision (P h)} (n : nat) :
  NoDup (map models.id
           (map (λ hit : hit, User_at hit.1 hit.2)
              (take n (filter P (map_to_list idx))))).
Proof.
  rewrite listed_ids.
  change (λ h : hit, Some h.1) with (Some ∘ (fst : hit → Z)).
  rewrite (list_fmap_compose fst Some).
  apply (NoDup_fmap_2 Some).
  eapply sublist_NoDup; [apply (NoDup_fst_map_to_list idx)|apply fmap_sublist].
  etransitivity; [apply sublist_take|apply sublist_filter].
Qed.

Section listing_spec.

Context `{engine}.

Lemma get_all_filter_selected (name : option string) (gender : option Gender)
    (status : option Status) (following : option Z) (lon lat : option R)
    (radius : R) (h : hit) :
  (is_Some lon ↔ is_Some lat) →
  forallb (λ c, clause_holds c h)
    (get_all_filter name gender status following lon lat radius) = true
  ↔ selected name gender status following lon lat radius h.2.
Proof.
  intros Hll. unfold get_all_filter, selected, truthy.
  destruct name as [n|], gender as [g|], status as [st|],
    following as [f|], lon as [x|], lat as [y|];
    try (destruct Hll as [H1 H2];
         first [by destruct H1; eauto | by destruct H2; eauto]);
    try (destruct (bool_decide_reflect (n = "")) as [->|Hn]);
    simpl; rewrite ?forallb_app; simpl;
    rewrite ?andb_true_iff, ?bool_decide_eq_true;
    (split;
     [ intros Hc; repeat split; intros; simplify_eq; tauto
     | intros (Hn' & Hg & Hst & Hf & Hxy);
       repeat split; eauto ]).
Qed.

(** X14: the filters of [get_all_users].  With [lon] and [lat] both given
    or both absent the route succeeds after one search, without touching
    the index.  Every
    profile it returns is the stored document of its id, and that
    document passes every filter that was given: a non-empty [name]
    matches, [gender] and [status] are equal, [following] is an element
    of the followed list, the location is within [radius]; an empty
    [name] filters nothing.  No id is listed twice, and while the index
    holds at most 10000 documents every document that passes is listed. *)
Theorem get_all_users_spec (name : option string) (gender : option Gender)
    (status : option Status) (following : option Z) (lon lat : option R)
    (radius : R) (s : es_state) :
  (is_Some lon ↔ is_Some lat) →
  ∃ us s',
    get_all_users name gender status following lon lat radius s = (Ok us, s')
    ∧ index s' = index s
    ∧ (∃ q, calls s' = calls s ++ [c_search_body q 10000])
    ∧ NoDup (map models.id us)
    ∧ (∀ p, p ∈ us →
         ∃ i d, index s !! i = Some d ∧ p = User_at i d
                ∧ selected name gender status following lon lat radius d)
    ∧ (Z.of_nat (size (index s)) ≤ 10000 →
       ∀ i d, index s !! i = Some d →
              selected name gender status following lon lat radius d →
              User_at i d ∈ us).
Proof.
  intros Hll. eexists _, _. split; [by apply get_all_users_run|].
  split; [done|]. split; [simpl; eauto|].
  split; [apply listed_NoDup|]. split.
  - intros p ([i d] & -> & Hin)%list_elem_of_fmap.
    apply (λ H, elem_of_sublist _ _ _ H (sublist_take _ _)) in Hin.
    apply list_elem_of_filter in Hin as [Hsel Hin].
    apply elem_of_map_to_list in Hin.
    exists i, d. split; [done|]. split; [done|].
    by apply (get_all_filter_selected _ _ _ _ _ _ _ (i, d)).
  - intros Hsz i d Hd Hsel. rewrite take_all by done.
    apply (list_elem_of_fmap_2 (λ hit : hit, User_at hit.1 hit.2) _ (i, d)).
    apply list_elem_of_filter. split.
    + by apply (get_all_filter_selected _ _ _ _ _ _ _ (i, d)).
    + by apply elem_of_map_to_list.
Qed.

Lemma get_followers_run (s : es_state) (id : Z) :
  is_Some (index s !! id) →
  get_followers id s
  = (Ok (map (λ hit : hit, User_at hit.1 hit.2)
           (take (Z.to_nat 10000)
              (filter (λ h : hit, bool_decide (id ∈ doc_following h.2) = true)
                 (map_to_list (index s))))),
     called (c_search_body (dsl.leaf (dsl.term_following id)) 10000)
       (called (c_exists id) s)).
Proof.
  intros [d Hid]. unfold get_followers, get_followers_body, es_search_body.
  run. tests.
Qed.

(** X15: [get_followers].  For an existing user the route succeeds after
    the existence test and one search for the documents whose
    [following] holds [id], and changes nothing.  Every profile it
    returns is the stored document of a user whose list of follows
    contains [id]; no id is listed twice; while the index holds at most
    10000 documents every such user is listed.  The list is the one
    [get_all_users] returns for the filter [following = id]. *)
Theorem get_followers_spec (s : es_state) (id : Z) :
  is_Some (index s !! id) →
  ∃ us s',
    get_followers id s = (Ok us, s')
    ∧ index s' = index s
    ∧ calls s'
      = calls s ++ [c_exists id;
                    c_search_body (dsl.leaf (dsl.term_following id)) 10000]
    ∧ NoDup (map models.id us)
    ∧ (∀ p, p ∈ us →
         ∃ j d, index s !! j = Some d ∧ id ∈ doc_following d
                ∧ p = User_at j d)
    ∧ (Z.of_nat (size (index s)) ≤ 10000 →
       ∀ j d, index s !! j = Some d → id ∈ doc_following d →
              User_at j d ∈ us)
    ∧ ∀ radius,
        (get_all_users None None None (Some id) None None radius s).1
        = Ok us.
Proof.
  intros Hid. eexists _, _. split; [by apply get_followers_run|].
  split; [done|]. split; [simpl; by rewrite <- app_assoc|].
  split; [apply listed_NoDup|]. split; [|split].
  - intros p ([j d] & -> & Hin)%list_elem_of_fmap.
    apply (λ H, elem_of_sublist _ _ _ H (sublist_take _ _)) in Hin.
    apply list_elem_of_filter in Hin as [Hsel Hin].
    apply elem_of_map_to_list in Hin.
    apply bool_decide_eq_true in Hsel. by exists j, d.
  - intros Hsz j d Hd Hin. rewrite take_all by done.
    apply (list_elem_of_fmap_2 (λ hit : hit, User_at hit.1 hit.2) _ (j, d)).
    apply list_elem_of_filter. split.
    + by apply bool_decide_eq_true.
    + by apply elem_of_map_to_list.
  - intros radius. rewrite get_all_users_run by done. simpl.
    do 3 f_equal. apply list_filter_iff. intros h. simpl.
    by rewrite andb_true_r.
Qed.

End listing_spec.

Lemma get_followers_spec_witness :
  is_Some (index triangle !! 1)
  ∧ ∃ us s',
      @get_followers example_engine 1 triangle = (Ok us, s')
      ∧ index s' = index triangle
      ∧ calls s'
        = calls triangle
          ++ [c_exists 1;
              c_search_body (dsl.leaf (dsl.term_following 1)) 10000]
      ∧ NoDup (map models.id us)
      ∧ (∀ p, p ∈ us →
           ∃ j d, index triangle !! j = Some d ∧ 1 ∈ doc_following d
                  ∧ p = User_at j d)
      ∧ (Z.of_nat (size (index triangle)) ≤ 10000 →
         ∀ j d, index triangle !! j = Some d → 1 ∈ doc_following d →
                User_at j d ∈ us)
      ∧ ∀ radius,
          (@get_all_users example_engine None None None (Some 1) None None
             radius triangle).1
          = Ok us.
Proof.
  assert (H : is_Some (index triangle !! 1)) by (eexists; reflexivity).
  split; [exact H|].
  exact (@get_followers_spec example_engine triangle 1 H).
Defined.

Lemma get_all_users_spec_witness :
  (is_Some (None : option R) ↔ is_Some (None : option R))
  ∧ ∃ us s',
      @get_all_users example_engine (Some "") None (Some married) None
        None None 10 married_user
      = (Ok us, s')
      ∧ index s' = index married_user
      ∧ (∃ q, calls s' = calls married_user ++ [c_search_body q 10000])
      ∧ NoDup (map models.id us)
      ∧ (∀ p, p ∈ us →
           ∃ i d, index married_user !! i = Some d ∧ p = User_at i d
                  ∧ @selected example_engine (Some "") None (Some married)
                      None None None 10 d)
      ∧ (Z.of_nat (size (index married_user)) ≤ 10000 →
         ∀ i d, index married_user !! i = Some d →
                @selected example_engine (Some "") None (Some married)
                  None None None 10 d →
                User_at i d ∈ us).
Proof.
  assert (H : is_Some (None : option R) ↔ is_Some (None : option R))
    by reflexivity.
  split; [exact H|].
  exact (@get_all_users_spec example_engine (Some "") None (Some married)
           None None None 10 married_user H).
Defined.

(** ** Followers and following *)

Section duality.

Context `{engine}.

Lemma followers_ids (s : es_state) (id j : Z) :
  is_Some (index s !! id) → Z.of_nat (size (index s)) ≤ 10000 →
  ∃ us, (get_followers id s).1 = Ok us
    ∧ (Some j ∈ map models.id us
       ↔ ∃ d, index s !! j = Some d ∧ id ∈ doc_following d).
Proof.
  intros Hid Hsz. rewrite get_followers_run by done. simpl.
  eexists. split; [done|].
  rewrite take_all by done. rewrite listed_ids, list_elem_of_fmap. split.
  - intros ([j' d] & [= ->] & Hin). simpl in *.
    apply list_elem_of_filter in Hin as [Hsel Hin].
    apply elem_of_map_to_list in Hin.
    apply bool_decide_eq_true in Hsel. eauto.
  - intros (d & Hd & Hin). exists (j, d). split; [done|].
    apply list_elem_of_filter. split.
    + by apply bool_decide_eq_true.
    + by apply elem_of_map_to_list.
Qed.

Lemma following_ids (s : es_state) (j id : Z) (d : doc) :
  index s !! j = Some d →
  ∃ us, (get_following j s).1 = Ok us
    ∧ (Some id ∈ map models.id us
       ↔ id ∈ doc_following d ∧ is_Some (index s !! id)).
Proof.
  intros Hj. destruct (get_following_run s j d Hj) as (s' & -> & _).
  eexists. split; [done|].
  rewrite omap_ids, list_elem_of_fmap. split.
  - intros (i & [= ->] & Hin). apply list_elem_of_filter in Hin. tauto.
  - intros [Hin Hid]. exists id. split; [done|].
    by apply list_elem_of_filter.
Qed.

(** X16: followers and following are converse.  For two existing users
    in an index of at most 10000 documents, [j] is listed by
    [get_followers id] exactly when [id] is listed by [get_following j]. *)
Theorem followers_following_converse (s : es_state) (id j : Z) :
  is_Some (index s !! id) → is_Some (index s !! j) →
  Z.of_nat (size (index s)) ≤ 10000 →
  ∃ followers following,
    (get_followers id s).1 = Ok followers
    ∧ (get_following j s).1 = Ok following
    ∧ (Some j ∈ map models.id followers
       ↔ Some id ∈ map models.id following).
Proof.
  intros Hid [d Hj] Hsz.
  destruct (followers_ids s id j Hid Hsz) as (us & Hus & Hin).
  destruct (following_ids s j id d Hj) as (us' & Hus' & Hin').
  exists us, us'. split; [done|]. split; [done|].
  rewrite Hin, Hin'. split.
  - intros (d' & Hd' & ?). by simplify_eq.
  - intros [? _]. eauto.
Qed.

(** X17: a follow is seen from the other side.  In an index of at most
    10000 documents, after a successful [add_follow id follow_id] the
    follower is listed by [get_followers follow_id], and after a
    successful [remove_follow id follow_id] it is not. *)
Theorem follow_then_followers (s : es_state) (id follow_id : Z) :
  Z.of_nat (size (index s)) ≤ 10000 →
  (∀ r, (add_follow id follow_id s).1 = Ok r →
     ∃ us, (get_followers follow_id (add_follow id follow_id s).2).1 = Ok us
           ∧ Some id ∈ map models.id us)
  ∧ (∀ r, (remove_follow id follow_id s).1 = Ok r →
       ∃ us, (get_followers follow_id (remove_follow id follow_id s).2).1
             = Ok us
             ∧ Some id ∉ map models.id us).
Proof.
  intros Hsz.
  assert (Hupd : ∀ d l tr,
            index s !! id = Some d → is_Some (index s !! follow_id) →
            let s' := {| index := <[id := with_following l d]> (index s);
                         calls := tr |} in
            ∃ us, (get_followers follow_id s').1 = Ok us
              ∧ (Some id ∈ map models.id us ↔ follow_id ∈ l)).
  { intros d l tr Hd Hf s'.
    assert (Hf' : is_Some (index s' !! follow_id)).
    { simpl. destruct (decide (id = follow_id)) as [<-|Hne].
      - rewrite lookup_insert_eq. eauto.
      - by rewrite lookup_insert_ne. }
    assert (Hsz' : Z.of_nat (size (index s')) ≤ 10000).
    { simpl. rewrite map_size_insert_Some by eauto. done. }
    destruct (followers_ids s' follow_id id Hf' Hsz') as (us & Hus & Hin).
    exists us. split; [done|]. rewrite Hin. simpl.
    rewrite lookup_insert_eq. split.
    - by intros (d' & [= <-] & ?).
    - intros ?. eauto. }
  split; intros r Hr.
  - destruct (add_follow_cases s id follow_id)
      as [[_ H1]|[(_ & _ & H1)|[(_ & _ & H1)
          |[(d & Hd & Hf & Hne & Hin & H1)|(d & Hd & Hf & Hne & Hin & H1)]]]];
      rewrite H1 in Hr |- *; try done; simpl.
    + destruct (followers_ids
                  {| index := index s;
                     calls := calls s ++ [c_exists id; c_exists follow_id;
                                          c_get id] |}
                  follow_id id Hf Hsz) as (us & Hus & Hiff).
      exists us. split; [done|]. apply Hiff. simpl. eauto.
    + destruct (Hupd d (doc_following d ++ [follow_id])
                  (calls s ++ [c_exists id; c_exists follow_id; c_get id;
                               c_update id (doc_following d ++ [follow_id])])
                  Hd Hf) as (us & Hus & Hiff).
      exists us. split; [done|]. apply Hiff.
      apply elem_of_app. right. by apply list_elem_of_singleton.
  - destruct (remove_follow_cases s id follow_id)
      as [[_ H1]|[(_ & _ & H1)|(d & Hd & Hf & H1)]];
      rewrite H1 in Hr |- *; try done; simpl.
    destruct (Hupd d (filter (λ f, f ≠ follow_id) (doc_following d))
                (calls s ++ [c_exists id; c_exists follow_id; c_get id;
                             c_update id
                               (filter (λ f, f ≠ follow_id)
                                  (doc_following d))])
                Hd Hf) as (us & Hus & Hiff).
    exists us. split; [done|]. rewrite Hiff.
    intros Hin%list_elem_of_filter. by destruct Hin.
Qed.

End duality.

Lemma followers_following_converse_witness :
  is_Some (index triangle !! 1) ∧ is_Some (index triangle !! 3)
  ∧ Z.of_nat (size (index triangle)) ≤ 10000
  ∧ ∃ followers following,
      (@get_followers example_engine 1 triangle).1 = Ok followers
      ∧ (get_following 3 triangle).1 = Ok following
      ∧ (Some 3 ∈ map models.id followers
         ↔ Some 1 ∈ map models.id following).
Proof.
  assert (H1 : is_Some (index triangle !! 1)) by (eexists; reflexivity).
  assert (H3 : is_Some (index triangle !! 3)) by (eexists; reflexivity).
  assert (Hsz : Z.of_nat (size (index triangle)) ≤ 10000)
    by (vm_compute; discriminate).
  repeat split; try assumption.
  exact (@followers_following_converse example_engine triangle 1 3 H1 H3 Hsz).
Defined.

Lemma follow_then_followers_witness :
  Z.of_nat (size (index two_users)) ≤ 10000
  ∧ (add_follow 1 2 two_users).1 = Ok (1, [2])
  ∧ ∃ us, (@get_followers example_engine 2 (add_follow 1 2 two_users).2).1
          = Ok us
          ∧ Some 1 ∈ map models.id us.
Proof.
  assert (Hsz : Z.of_nat (size (index two_users)) ≤ 10000)
    by (vm_compute; discriminate).
  assert (Hr : (add_follow 1 2 two_users).1 = Ok (1, [2])) by reflexivity.
  split; [exact Hsz|]. split; [exact Hr|].
  exact (proj1 (@follow_then_followers example_engine two_users 1 2 Hsz)
           _ Hr).
Defined.

(** ** The status-aware suggestions *)

Lemma omap_status_filter (idx : gmap Z doc) (l : list Z) :
  omap (λ sid, idx !! sid ≫= Suggest_2.suggestion sid) l
  = filter (λ p, models.status p = single)
      (omap (λ sid, idx !! sid ≫= suggestions.suggestion sid) l).
Proof.
  induction l as [|sid l IH]; [done|]. csimpl. rewrite IH.
  destruct (idx !! sid) as [d|]; simpl; [|done].
  unfold Suggest_2.suggestion. case_bool_decide as Hst.
  - by rewrite filter_cons_True.
  - by rewrite filter_cons_False.
Qed.

(** X18: the suggestions of Suggest 2.py.  For an existing requester the
    route succeeds without changing the index.  A requester who is not
    single gets the empty list after the existence test and the read of
    their own document, with no friend-of-friend traversal.  A single
    requester gets the suggestions of the route of 7.py with the profiles
    that are not single removed, in the same order. *)
Theorem status_aware_suggestions (s : es_state) (id : Z) (u : doc) :
  index s !! id = Some u →
  ∃ us all s',
    Suggest_2.get_user_suggestions id s = (Ok us, s')
    ∧ (suggestions.get_user_suggestions id s).1 = Ok all
    ∧ index s' = index s
    ∧ (doc_status u ≠ single →
       us = [] ∧ calls s' = calls s ++ [c_exists id; c_get id])
    ∧ (doc_status u = single →
       us = filter (λ p, models.status p = single) all).
Proof.
  intros Hid.
  set (s0 := called (c_get id) (called (c_exists id) s)).
  destruct (collect_followed_run (doc_following u) s0)
    as (ids & s1 & Hrun1 & Hidx1 & _ & _).
  destruct (retrieve_run suggestions.suggestion
              (exclude id (doc_following u) ids) s1)
    as (s2 & Hrun2 & Hidx2 & _).
  destruct (retrieve_run Suggest_2.suggestion
              (exclude id (doc_following u) ids) s1)
    as (s3 & Hrun3 & Hidx3 & _).
  assert (Hall : suggestions.get_user_suggestions id s
                 = (Ok (omap (λ sid, index s1 !! sid
                                     ≫= suggestions.suggestion sid)
                          (elements (exclude id (doc_following u) ids))),
                    s2)).
  { apply try_except_ok. unfold suggestions.get_user_suggestions_body.
    rewrite (exists_then_get _ _ s id u) by done. fold s0.
    unfold bind. by rewrite Hrun1, Hrun2. }
  rewrite Hall. simpl.
  destruct (decide (doc_status u = single)) as [Hst|Hst].
  - eexists _, _, s3. split.
    { apply try_except_ok. unfold Suggest_2.get_user_suggestions_body.
      rewrite (exists_then_get _ _ s id u) by done. fold s0.
      rewrite bool_decide_false by (by intros ?).
      unfold bind. rewrite Hrun1. exact Hrun3. }
    split; [done|]. split; [by rewrite Hidx3, Hidx1|].
    split; [done|]. intros _. apply omap_status_filter.
  - eexists [], _, s0. split.
    { apply try_except_ok. unfold Suggest_2.get_user_suggestions_body.
      rewrite (exists_then_get _ _ s id u) by done. fold s0.
      by rewrite bool_decide_true. }
    split; [done|]. split; [done|]. split; [|done].
    intros _. split; [done|]. simpl. by rewrite <- app_assoc.
Qed.

Lemma status_aware_suggestions_witness :
  index married_user !! 1 = Some (profile "U" married [2])
  ∧ ∃ us all s',
      Suggest_2.get_user_suggestions 1 married_user = (Ok us, s')
      ∧ (suggestions.get_user_suggestions 1 married_user).1 = Ok all
      ∧ index s' = index married_user
      ∧ (doc_status (profile "U" married [2]) ≠ single →
         us = [] ∧ calls s' = calls married_user ++ [c_exists 1; c_get 1])
      ∧ (doc_status (profile "U" married [2]) = single →
         us = filter (λ p, models.status p = single) all).
Proof.
  assert (H : index married_user !! 1 = Some (profile "U" married [2]))
    by reflexivity.
  split; [exact H|].
  exact (status_aware_suggestions married_user 1 _ H).
Defined.

(** ** The members of a match list *)

Lemma scored_users (score : hit → result scored) (hits : list hit)
    (ms : list scored) :
  (∀ h m, score h = Ok m → user m = User_of h.1 h.2 (xy_location h.2)) →
  Forall2 (λ h m, score h = Ok m) hits ms →
  map user (list_sort sort_key tuple_lt ms)
  ≡ₚ map (λ hit : hit, User_of hit.1 hit.2 (xy_location hit.2)) hits.
Proof.
  intros Hscore Hms. rewrite list_sort_Permutation.
  induction Hms as [|h m hits ms Hm _ IH]; [done|]. simpl.
  by rewrite (Hscore h m Hm), IH.
Qed.

Lemma matches_sorted (idx : gmap Z doc) (id : Z) (sort : list sort_clause) :
  Z.of_nat (size idx) ≤ 10000 →
  search_hits idx (matches_query id) sort 10000
  ≡ₚ filter (λ h, query_matches (matches_query id) h = true)
       (map_to_list idx).
Proof.
  intros Hsz. unfold search_hits. rewrite take_ge.
  - apply list_sort_Permutation.
  - rewrite list_sort_Permutation.
    etransitivity; [apply length_filter|].
    rewrite length_map_to_list. lia.
Qed.

(** X19: who is matched.  For an existing single requester in an index
    of at most 10000 documents, the route of Matches.py succeeds and
    returns the profile of every stored user that is single and is not
    the requester, each once, and nothing else.  Each of the client-side
    routes, of Matches 2.py and of Matches 3.py, returns a rearrangement
    of the same profiles, or answers 500 "Failed to retrieve matches:
    ..." (when a distance raises, see C1).  Each of the three routes
    issues one search and no write, and leaves the index as it was. *)
Theorem get_matches_members `{float_unit} (s : es_state) (id : Z) (u : doc) :
  index s !! id = Some u → doc_status u = single →
  Z.of_nat (size (index s)) ≤ 10000 →
  ∃ us1,
    (Matches.get_matches id s).1 = Ok us1
    ∧ NoDup (map models.id us1)
    ∧ (∀ p, p ∈ us1 ↔
         ∃ i d, index s !! i = Some d ∧ doc_status d = single ∧ i ≠ id
                ∧ p = {| models.id := Some i;
                         models.name := doc_name d;
                         models.gender := doc_gender d;
                         models.status := doc_status d;
                         models.following := doc_following d;
                         models.location :=
                           match doc_x d, doc_y d with
                           | Some x, Some y =>
                               {| models.lon := x; models.lat := y |}
                           | _, _ => {| models.lon := 0; models.lat := 0 |}
                           end |})
    ∧ Forall
        (λ r : result (list User) * es_state,
           match r.1 with
           | Ok us => us ≡ₚ us1
           | Raise e =>
               ∃ text,
                 e = HTTPException 500
                       ("Failed to retrieve matches: " +:+ text)
           end
           ∧ index r.2 = index s
           ∧ searches (calls r.2) = S (searches (calls s))
           ∧ writes (calls r.2) = writes (calls s))
        [Matches.get_matches id s; Matches_2.get_matches id s;
         Matches_3.get_matches id s].
Proof.
  intros Hid Hst Hsz.
  set (all := map (λ hit : hit, User_of hit.1 hit.2 (xy_location hit.2))
                (filter (λ h, query_matches (matches_query id) h = true)
                   (map_to_list (index s)))).
  assert (H1 : ∀ sort,
            map (λ hit : hit, User_of hit.1 hit.2 (xy_location hit.2))
              (search_hits (index s) (matches_query id) sort 10000)
            ≡ₚ all).
  { intros sort. unfold all. by rewrite matches_sorted. }
  assert (H3 : ∀ sort,
            let s' := called (c_search (matches_query id) sort 10000)
                        (called (c_get id) (called (c_exists id) s)) in
            index s' = index s
            ∧ searches (calls s') = S (searches (calls s))
            ∧ writes (calls s') = writes (calls s)).
  { intros sort. simpl. split; [done|].
    rewrite <- !app_assoc, searches_app, writes_app.
    unfold searches at 2, writes at 2. simpl. lia. }
  assert (Hclient : ∀ (score : hit → result scored)
                      (r : result (list User) * es_state),
            (∀ h m, score h = Ok m →
               user m = User_of h.1 h.2 (xy_location h.2)) →
            (∀ h e, score h = Raise e →
               ∃ text, e = ValueError text ∨ e = OverflowError text) →
            (∃ ms, Forall2 (λ h m, score h = Ok m)
                     (search_hits (index s) (matches_query id) [] 10000) ms
                   ∧ r = (Ok (map user (list_sort sort_key tuple_lt ms)),
                          called (c_search (matches_query id) [] 10000)
                            (called (c_get id) (called (c_exists id) s))))
            ∨ (∃ h e, h ∈ search_hits (index s) (matches_query id) [] 10000
                      ∧ score h = Raise e
                      ∧ r = (Raise (matches_except_clauses e),
                             called (c_search (matches_query id) [] 10000)
                               (called (c_get id)
                                  (called (c_exists id) s)))) →
            match r.1 with
            | Ok us =>
                us ≡ₚ map (λ hit : hit,
                             User_of hit.1 hit.2 (xy_location hit.2))
                        (search_hits (index s) (matches_query id)
                           [_script_desc (default [] (doc_hobbies u));
                            _geo_distance_asc (default 0%R (doc_y u))
                              (default 0%R (doc_x u))]
                           10000)
            | Raise e =>
                ∃ text,
                  e = HTTPException 500
                        ("Failed to retrieve matches: " +:+ text)
            end
            ∧ index r.2 = index s
            ∧ searches (calls r.2) = S (searches (calls s))
            ∧ writes (calls r.2) = writes (calls s)).
  { intros score r Hu He [(ms & Hms & ->)|(h & e & _ & Hh & ->)];
      (split; [|apply H3]); simpl.
    - rewrite (scored_users score _ _ Hu Hms). by rewrite !H1.
    - destruct (He h e Hh) as (text & [-> | ->]); by exists text. }
  eexists. split.
  { by rewrite (get_matches_1_run s id u). }
  split; [|split].
  - simpl. rewrite (Permutation_map models.id (H1 _)).
    unfold all. rewrite map_map. simpl.
    change (λ x : hit, Some x.1) with (Some ∘ (fst : hit → Z)).
    rewrite (list_fmap_compose fst Some).
    apply (NoDup_fmap_2 Some).
    eapply sublist_NoDup; [apply (NoDup_fst_map_to_list (index s))|].
    apply fmap_sublist, sublist_filter.
  - intros p. simpl. rewrite H1. unfold all.
    rewrite list_elem_of_fmap. split.
    + intros ([i d] & -> & Hin).
      apply matches_query_selects in Hin. simpl in *.
      exists i, d. split; [tauto|]. split; [tauto|]. split; [tauto|].
      unfold User_of, xy_location. by destruct (doc_x d), (doc_y d).
    + intros (i & d & Hd & Hs & Hne & ->). exists (i, d).
      split; [|by apply matches_query_selects].
      unfold User_of, xy_location. simpl.
      by destruct (doc_x d), (doc_y d).
  - constructor; [|constructor; [|constructor; [|constructor]]].
    + rewrite (get_matches_1_run s id u) by done. simpl.
      split; [done|]. apply H3.
    + apply (Hclient
               (Matches_2.score
                  (default 0%R (doc_x u), default 0%R (doc_y u))
                  (list_to_set (default [] (doc_hobbies u))))).
      * intros h m Hm. by apply score_2_Ok in Hm as (? & _).
      * intros h e He%score_2_Raise%calculate_distance_raises.
        destruct He as [-> | ->]; eauto.
      * by apply get_matches_2_run.
    + apply (Hclient
               (Matches_3.score
                  (default 0%R (doc_x u), default 0%R (doc_y u))
                  (list_to_set (default [] (doc_hobbies u))))).
      * intros h m Hm. by apply score_3_Ok in Hm as (? & _).
      * intros h e He%score_3_Raise. destruct He as [_ ->]. eauto.
      * by apply get_matches_3_run.
Qed.

Lemma get_matches_members_witness :
  index match_ordering !! 1 = Some (located "R" 0 0 ["reading"; "hiking"])
  ∧ doc_status (located "R" 0 0 ["reading"; "hiking"]) = single
  ∧ Z.of_nat (size (index match_ordering)) ≤ 10000
  ∧ ∃ us1,
      (Matches.get_matches 1 match_ordering).1 = Ok us1
      ∧ (∀ p, p ∈ us1 ↔
           ∃ i d, index match_ordering !! i = Some d ∧ doc_status d = single
                  ∧ i ≠ 1
                  ∧ p = {| models.id := Some i;
                           models.name := doc_name d;
                           models.gender := doc_gender d;
                           models.status := doc_status d;
                           models.following := doc_following d;
                           models.location :=
                             match doc_x d, doc_y d with
                             | Some x, Some y =>
                                 {| models.lon := x; models.lat := y |}
                             | _, _ =>
                                 {| models.lon := 0; models.lat := 0 |}
                             end |})
      ∧ ∃ us2 us3,
          (@Matches_2.get_matches exact_floats 1 match_ordering).1 = Ok us2
          ∧ (@Matches_3.get_matches exact_floats 1 match_ordering).1
            = Ok us3
          ∧ us2 ≡ₚ us1 ∧ us3 ≡ₚ us1.
Proof.
  assert (H1 : index match_ordering !! 1
               = Some (located "R" 0 0 ["reading"; "hiking"]))
    by reflexivity.
  assert (H2 : doc_status (located "R" 0 0 ["reading"; "hiking"]) = single)
    by reflexivity.
  assert (H3 : Z.of_nat (size (index match_ordering)) ≤ 10000)
    by (vm_compute; discriminate).
  split; [exact H1|]. split; [exact H2|]. split; [exact H3|].
  destruct (@get_matches_members exact_floats match_ordering 1 _ H1 H2 H3)
    as (us1 & Hrun & _ & Hmem & Hall).
  exists us1. split; [exact Hrun|]. split; [exact Hmem|].
  apply Forall_cons in Hall as [_ Hall].
  apply Forall_cons in Hall as [(Hr2 & _) Hall].
  apply Forall_cons in Hall as [(Hr3 & _) _].
  rewrite (get_matches_2_exact_run match_ordering 1 _ H1 H2) in Hr2 |- *.
  rewrite (get_matches_3_exact_run match_ordering 1 _ H1 H2) in Hr3 |- *.
  eexists _, _. split; [reflexivity|]. split; [reflexivity|].
  split; [exact Hr2|exact Hr3].
Defined.
